(** * Fruit Catch: the game engine of [src/js/gameEngine.js]

    A shallow embedding of the [GameEngine] class: the session fields, the
    methods, and the engine as its host drives it ([start], [stop],
    [setBasketZone], the animation-frame callback [loop] and the one-second
    interval callback installed by [start]).

    Numbers.  Every number the engine stores is integer valued ([score],
    [level], [timeLeft], [lives], [spawnInterval], [baseSpeed], an item's
    [y]) and is modelled as [Z]; a JavaScript double is exact on integers
    below 2^53.  The bomb probability is a genuine double and is modelled
    with the primitive binary64 floats.  Frame timestamps are taken in
    whole milliseconds.

    The host.  What the engine reads from its surroundings comes with the
    event: the time for [start], and for a frame its timestamp, the
    [offsetHeight] of the game area and the outcomes of [Math.random].
    The pending animation-frame callbacks and the active intervals are
    kept in [Host], so that a callback runs only while it is registered.

    The DOM.  The elements the engine writes to are kept as the record
    [Dom] (texts and flags only); item elements, emoji, styles and the
    half-second colour flash of [levelUp] are rendering and are left
    out.

    The page script.  Of [src/js/main.js] the prediction callback
    [handlePrediction] is embedded: it is what calls [setBasketZone].
    The webcam start-up wrapped around [start] and the skeleton drawing
    depend on the pose library and the camera and are left out. *)

From stdpp Require Import base list strings.
From Stdlib Require Import ZArith QArith Qminmax Qabs Floats Lia.

Set Warnings "-inexact-float".
Local Open Scope string_scope.
Local Open Scope Z_scope.
Local Open Scope list_scope.

(** ** Data model *)

(** [this.state]: one of the strings 'STOPPED', 'RUNNING', 'GAMEOVER'. *)
Inductive GameState := STOPPED | RUNNING | GAMEOVER.

#[global] Instance GameState_eq_dec : EqDecision GameState.
Proof. solve_decision. Defined.

(** An entry of [this.itemTypes]. *)
Module ItemType.
Record t := mk { type : string; score : Z }.
End ItemType.

(** A falling item: [{ id, ...itemType, zone, y, element }]. *)
Module Item.
Record t := mk { id : string; type : string; score : Z; zone : string; y : Z }.
Definition set_y (v : Z) (i : t) : t := mk (id i) (type i) (score i) (zone i) v.
End Item.

#[global] Instance Item_eq_dec : EqDecision Item.t.
Proof. solve_decision. Defined.

(** The elements of the page that the engine writes to. *)
Record Dom := mkDom {
  scoreEl : Z;                    (* #score *)
  levelEl : Z;                    (* #level *)
  timeEl : Z;                     (* #time *)
  livesEl : Z;                    (* #lives: the number of hearts *)
  basketLeft : string;            (* the percentage in basket.style.left *)
  overlayHidden : bool;           (* class "hidden" on #game-overlay *)
  overlayTitle : string;
  overlayDesc : string;
  finalScoreDisplay : option Z;   (* Some n: the text "Final Score: n" *)
  startBtnText : string }.

(** The host's registries: the pending requestAnimationFrame callbacks (in
    the order they will run), the active setInterval timers, and the next
    handle to hand out. *)
Record Host := mkHost {
  frames : list nat;
  intervals : list nat;
  fresh : nat }.

Record GameEngine := mkGame {
  score : Z;
  level : Z;
  timeLeft : Z;
  lives : Z;
  state : GameState;
  basketZone : string;
  items : list Item.t;
  lastSpawnTime : Z;
  spawnInterval : Z;
  baseSpeed : Z;
  gameLoopId : option nat;
  timerInterval : option nat;
  lastTime : option Z;
  dom : Dom;
  host : Host }.

(** Field assignments [this.f = v]. *)
Definition set_score v g := mkGame v (level g) (timeLeft g) (lives g) (state g) (basketZone g) (items g) (lastSpawnTime g) (spawnInterval g) (baseSpeed g) (gameLoopId g) (timerInterval g) (lastTime g) (dom g) (host g).
Definition set_level v g := mkGame (score g) v (timeLeft g) (lives g) (state g) (basketZone g) (items g) (lastSpawnTime g) (spawnInterval g) (baseSpeed g) (gameLoopId g) (timerInterval g) (lastTime g) (dom g) (host g).
Definition set_timeLeft v g := mkGame (score g) (level g) v (lives g) (state g) (basketZone g) (items g) (lastSpawnTime g) (spawnInterval g) (baseSpeed g) (gameLoopId g) (timerInterval g) (lastTime g) (dom g) (host g).
Definition set_lives v g := mkGame (score g) (level g) (timeLeft g) v (state g) (basketZone g) (items g) (lastSpawnTime g) (spawnInterval g) (baseSpeed g) (gameLoopId g) (timerInterval g) (lastTime g) (dom g) (host g).
Definition set_state v g := mkGame (score g) (level g) (timeLeft g) (lives g) v (basketZone g) (items g) (lastSpawnTime g) (spawnInterval g) (baseSpeed g) (gameLoopId g) (timerInterval g) (lastTime g) (dom g) (host g).
Definition set_basketZone v g := mkGame (score g) (level g) (timeLeft g) (lives g) (state g) v (items g) (lastSpawnTime g) (spawnInterval g) (baseSpeed g) (gameLoopId g) (timerInterval g) (lastTime g) (dom g) (host g).
Definition set_items v g := mkGame (score g) (level g) (timeLeft g) (lives g) (state g) (basketZone g) v (lastSpawnTime g) (spawnInterval g) (baseSpeed g) (gameLoopId g) (timerInterval g) (lastTime g) (dom g) (host g).
Definition set_lastSpawnTime v g := mkGame (score g) (level g) (timeLeft g) (lives g) (state g) (basketZone g) (items g) v (spawnInterval g) (baseSpeed g) (gameLoopId g) (timerInterval g) (lastTime g) (dom g) (host g).
Definition set_spawnInterval v g := mkGame (score g) (level g) (timeLeft g) (lives g) (state g) (basketZone g) (items g) (lastSpawnTime g) v (baseSpeed g) (gameLoopId g) (timerInterval g) (lastTime g) (dom g) (host g).
Definition set_baseSpeed v g := mkGame (score g) (level g) (timeLeft g) (lives g) (state g) (basketZone g) (items g) (lastSpawnTime g) (spawnInterval g) v (gameLoopId g) (timerInterval g) (lastTime g) (dom g) (host g).
Definition set_gameLoopId v g := mkGame (score g) (level g) (timeLeft g) (lives g) (state g) (basketZone g) (items g) (lastSpawnTime g) (spawnInterval g) (baseSpeed g) v (timerInterval g) (lastTime g) (dom g) (host g).
Definition set_timerInterval v g := mkGame (score g) (level g) (timeLeft g) (lives g) (state g) (basketZone g) (items g) (lastSpawnTime g) (spawnInterval g) (baseSpeed g) (gameLoopId g) v (lastTime g) (dom g) (host g).
Definition set_lastTime v g := mkGame (score g) (level g) (timeLeft g) (lives g) (state g) (basketZone g) (items g) (lastSpawnTime g) (spawnInterval g) (baseSpeed g) (gameLoopId g) (timerInterval g) v (dom g) (host g).
Definition set_dom v g := mkGame (score g) (level g) (timeLeft g) (lives g) (state g) (basketZone g) (items g) (lastSpawnTime g) (spawnInterval g) (baseSpeed g) (gameLoopId g) (timerInterval g) (lastTime g) v (host g).
Definition set_host v g := mkGame (score g) (level g) (timeLeft g) (lives g) (state g) (basketZone g) (items g) (lastSpawnTime g) (spawnInterval g) (baseSpeed g) (gameLoopId g) (timerInterval g) (lastTime g) (dom g) v.

(** The engine as the constructor leaves it.  The overlay texts come from
    the page and are not known to the engine; they start empty here. *)
Definition initialDom : Dom :=
  mkDom 0 1 60 3 "50%" false "" "" None "".

Definition constructed : GameEngine :=
  mkGame 0 1 60 3 STOPPED "CENTER" [] 0 2000 3 None None None
         initialDom (mkHost [] [] 0).

(** [this.itemTypes] *)
Definition itemTypes : list ItemType.t :=
  [ ItemType.mk "apple" 100; ItemType.mk "pear" 150;
    ItemType.mk "orange" 200; ItemType.mk "bomb" 0 ].

(** ** Host primitives *)

Definition requestAnimationFrame (h : Host) : nat * Host :=
  (fresh h, mkHost (frames h ++ [fresh h]) (intervals h) (S (fresh h))).

Definition setInterval (h : Host) : nat * Host :=
  (fresh h, mkHost (frames h) (intervals h ++ [fresh h]) (S (fresh h))).

Definition remove_id (i : nat) (l : list nat) : list nat :=
  filter (fun j => j <> i) l.

(** A null handle cancels nothing. *)
Definition cancelAnimationFrame (i : option nat) (h : Host) : Host :=
  match i with
  | Some i => mkHost (remove_id i (frames h)) (intervals h) (fresh h)
  | None => h
  end.

Definition clearInterval (i : option nat) (h : Host) : Host :=
  match i with
  | Some i => mkHost (frames h) (remove_id i (intervals h)) (fresh h)
  | None => h
  end.

(** ** The engine's methods *)

Definition updateUI (g : GameEngine) : GameEngine :=
  let d := dom g in
  set_dom (mkDom (score g) (level g) (timeLeft g) (Z.max 0 (lives g))
                 (basketLeft d) (overlayHidden d) (overlayTitle d)
                 (overlayDesc d) (finalScoreDisplay d) (startBtnText d)) g.

Definition stop (g : GameEngine) : GameEngine :=
  let g := set_state STOPPED g in
  let g := set_host (cancelAnimationFrame (gameLoopId g) (host g)) g in
  set_host (clearInterval (timerInterval g) (host g)) g.

Definition gameOver (reason : string) (g : GameEngine) : GameEngine :=
  let g := stop g in
  let g := set_state GAMEOVER g in
  let d := dom g in
  set_dom (mkDom (scoreEl d) (levelEl d) (timeEl d) (livesEl d)
                 (basketLeft d) false "GAME OVER" reason
                 (Some (score g)) "RESTART") g.

Definition levelUp (g : GameEngine) : GameEngine :=
  let g := set_level (level g + 1) g in
  let g := set_baseSpeed (baseSpeed g + 1) g in
  let g := set_spawnInterval (Z.max 500 (2000 - (level g - 1) * 300)) g in
  updateUI g.

Definition leftPercent (zone : string) : string :=
  let p := "50%" in
  let p := if decide (zone = "LEFT") then "16.66%" else p in
  if decide (zone = "RIGHT") then "83.33%" else p.

Definition setBasketZone (zone : string) (g : GameEngine) : GameEngine :=
  let g := set_basketZone zone g in
  let d := dom g in
  set_dom (mkDom (scoreEl d) (levelEl d) (timeEl d) (livesEl d)
                 (leftPercent zone) (overlayHidden d) (overlayTitle d)
                 (overlayDesc d) (finalScoreDisplay d) (startBtnText d)) g.

Definition resetGame (g : GameEngine) : GameEngine :=
  let g := set_score 0 g in
  let g := set_level 1 g in
  let g := set_timeLeft 60 g in
  let g := set_lives 3 g in
  let g := set_items [] g in
  let g := set_spawnInterval 2000 g in
  let g := set_baseSpeed 3 g in
  let g := updateUI g in
  setBasketZone "CENTER" g.

(** The body of the interval callback installed by [start]. *)
Definition timerTick (g : GameEngine) : GameEngine :=
  let g := set_timeLeft (timeLeft g - 1) g in
  let g := updateUI g in
  let g := if decide (Z.rem (60 - timeLeft g) 20 = 0 /\ timeLeft g <> 60)
           then levelUp g else g in
  if decide (timeLeft g <= 0) then gameOver "Time's Up!" g else g.

(** [start()]; [now] is what [performance.now()] returns. *)
Definition start (now : Z) (g : GameEngine) : GameEngine :=
  if decide (state g = RUNNING) then g
  else
    let g := resetGame g in
    let g := set_state RUNNING g in
    let d := dom g in
    let g := set_dom (mkDom (scoreEl d) (levelEl d) (timeEl d) (livesEl d)
                            (basketLeft d) true (overlayTitle d)
                            (overlayDesc d) (finalScoreDisplay d)
                            (startBtnText d)) g in
    let g := set_lastSpawnTime now g in
    let '(i, h) := requestAnimationFrame (host g) in
    let g := set_gameLoopId (Some i) (set_host h g) in
    let '(t, h) := setInterval (host g) in
    set_timerInterval (Some t) (set_host h g).

(** ** Spawning *)

(** [Number(level)]: the double of an integer (exact below 2^53). *)
Definition Number (z : Z) : float :=
  if decide (z < 0) then PrimFloat.opp (PrimFloat.of_uint63 (Uint63.of_Z (- z)))
  else PrimFloat.of_uint63 (Uint63.of_Z z).

(** [Math.min] on two doubles: NaN if either is NaN, and -0 below +0. *)
Definition Math_min (a b : float) : float :=
  if PrimFloat.is_nan a then a
  else if PrimFloat.is_nan b then b
  else if PrimFloat.ltb a b then a
  else if PrimFloat.ltb b a then b
  else if PrimFloat.get_sign a then a else b.

(** [Math.min(0.1 + (this.level * 0.05), 0.4)] *)
Definition bombChance (level : Z) : float :=
  Math_min (0.1 + Number level * 0.05)%float 0.4%float.

(** What [Math.floor(Math.random() * 3)] can be. *)
Inductive Idx3 := I0 | I1 | I2.

Definition ix (i : Idx3) : nat :=
  match i with I0 => 0%nat | I1 => 1%nat | I2 => 2%nat end.

(** The outcomes of the calls to [Math.random] in one [spawnItem], in the
    order they are made: the lane index, the bomb coin, the fruit index
    (drawn only when the coin says fruit) and the item's id. *)
Record Draws := mkDraws {
  zoneIx : Idx3;
  coin : float;
  fruitIx : Idx3;
  newId : string }.

Definition zones : list string := ["LEFT"; "CENTER"; "RIGHT"].

Definition isBomb (i : ItemType.t) : bool := bool_decide (ItemType.type i = "bomb").

Definition pickType (lvl : Z) (d : Draws) : option ItemType.t :=
  if PrimFloat.ltb (coin d) (bombChance lvl)
  then List.find isBomb itemTypes
  else List.filter (fun i => negb (isBomb i)) itemTypes !! ix (fruitIx d).

(** Both look-ups succeed for every draw (see [spawnItem_defined]); the
    last branch stands for the [undefined] that cannot arise. *)
Definition spawnItem (d : Draws) (g : GameEngine) : GameEngine :=
  match zones !! ix (zoneIx d), pickType (level g) d with
  | Some zone, Some ty =>
      let item := Item.mk (newId d) (ItemType.type ty) (ItemType.score ty) zone (-50) in
      set_items (items g ++ [item]) g
  | _, _ => g
  end.

Definition spawnSystem (timestamp : Z) (d : Draws) (g : GameEngine) : GameEngine :=
  if decide (timestamp - lastSpawnTime g > spawnInterval g)
  then set_lastSpawnTime timestamp (spawnItem d g)
  else g.

(** ** Simulation *)

Definition handleMiss (item : Item.t) (index : nat) (g : GameEngine) : GameEngine :=
  let g := set_items (delete index (items g)) g in
  if decide (Item.type item <> "bomb") then
    let g := set_lives (lives g - 1) g in
    let g := updateUI g in
    if decide (lives g <= 0) then gameOver "Too many fruits missed!" g else g
  else g.

(** The callback that [updateItems] passes to [forEach], at an index that
    is present in the array. *)
Definition updateItem (gameHeight : Z) (item : Item.t) (index : nat)
    (g : GameEngine) : GameEngine :=
  let item := Item.set_y (Item.y item + baseSpeed g) item in
  let g := set_items (<[index := item]> (items g)) g in
  if decide (Item.y item > gameHeight) then handleMiss item index g else g.

(** [Array.prototype.forEach]: the length is read once, before the first
    call; index [k] runs over [0 .. len-1] and the callback is called only
    for the indices still present when their turn comes.  [n] is the
    number of indices left to visit. *)
Fixpoint forEach_from (n k : nat) (gameHeight : Z) (g : GameEngine) : GameEngine :=
  match n with
  | O => g
  | S n' =>
      let g' := match items g !! k with
                | Some item => updateItem gameHeight item k g
                | None => g
                end in
      forEach_from n' (S k) gameHeight g'
  end.

Definition updateItems (gameHeight : Z) (g : GameEngine) : GameEngine :=
  forEach_from (length (items g)) 0 gameHeight g.

(** ** Collision *)

Definition handleCatch (item : Item.t) (index : nat) (g : GameEngine) : GameEngine :=
  let g := set_items (delete index (items g)) g in
  if decide (Item.type item = "bomb") then gameOver "You caught a Bomb!" g
  else updateUI (set_score (score g + Item.score item) g).

(** The test of [checkCollisions] on one item. *)
Definition collides (containerHeight : Z) (basket : string) (item : Item.t) : Prop :=
  let basketTop := containerHeight - 100 in
  let basketBottom := containerHeight - 20 in
  let itemBottom := Item.y item + 50 in
  let itemTop := Item.y item in
  (itemBottom >= basketTop /\ itemTop <= basketBottom) /\ Item.zone item = basket.

#[global] Instance collides_dec h b i : Decision (collides h b i).
Proof. unfold collides. apply _. Defined.

(** One iteration of the [for] loop, at index [i]. *)
Definition collisionAt (containerHeight : Z) (i : nat) (g : GameEngine) : GameEngine :=
  match items g !! i with
  | Some item =>
      if decide (collides containerHeight (basketZone g) item)
      then handleCatch item i g else g
  | None => g
  end.

(** [for (let i = n - 1; i >= 0; i--)] *)
Fixpoint scanDown (n : nat) (containerHeight : Z) (g : GameEngine) : GameEngine :=
  match n with
  | O => g
  | S i => scanDown i containerHeight (collisionAt containerHeight i g)
  end.

Definition checkCollisions (containerHeight : Z) (g : GameEngine) : GameEngine :=
  scanDown (length (items g)) containerHeight g.

(** ** The frame callback *)

(** [height] is the [offsetHeight] of the game area during this frame. *)
Definition loop (timestamp height : Z) (d : Draws) (g : GameEngine) : GameEngine :=
  if decide (state g <> RUNNING) then g
  else
    let g := set_lastTime (Some timestamp) g in
    let g := spawnSystem timestamp d g in
    let g := updateItems height g in
    let g := checkCollisions height g in
    let '(i, h) := requestAnimationFrame (host g) in
    set_gameLoopId (Some i) (set_host h g).

(** ** The engine driven by its host *)

Inductive Event :=
| EvStart (now : Z)
| EvStop
| EvSetBasketZone (zone : string)
| EvFrame (timestamp height : Z) (d : Draws)
| EvTimer.

(** A frame event runs the oldest pending animation-frame callback; a timer
    event runs the interval callback.  Neither can happen with nothing
    registered. *)
Definition enabled (e : Event) (g : GameEngine) : bool :=
  match e with
  | EvFrame _ _ _ => bool_decide (frames (host g) <> [])
  | EvTimer => bool_decide (intervals (host g) <> [])
  | _ => true
  end.

Definition popFrame (h : Host) : Host :=
  mkHost (tail (frames h)) (intervals h) (fresh h).

Definition handle (e : Event) (g : GameEngine) : GameEngine :=
  match e with
  | EvStart now => start now g
  | EvStop => stop g
  | EvSetBasketZone zone => setBasketZone zone g
  | EvFrame timestamp height d => loop timestamp height d (set_host (popFrame (host g)) g)
  | EvTimer => timerTick g
  end.

(** The handlers that are ticks or lane updates. *)
Definition isTick (e : Event) : bool :=
  match e with
  | EvFrame _ _ _ | EvTimer | EvSetBasketZone _ => true
  | _ => false
  end.

Inductive reachable : GameEngine -> Prop :=
| reach_init : reachable constructed
| reach_step e g : reachable g -> enabled e g = true -> reachable (handle e g).

(** Running a list of events, each of which has to be enabled. *)
Fixpoint run (es : list Event) (g : GameEngine) : option GameEngine :=
  match es with
  | [] => Some g
  | e :: es => if enabled e g then run es (handle e g) else None
  end.

(** ** What the two passes should compute *)

(** An item moved down by [v]. *)
Definition moved (v : Z) (item : Item.t) : Item.t :=
  Item.set_y (Item.y item + v) item.

(** The score of one item if the basket catches it: its [score] for a
    fruit inside the band in the basket's lane, nothing otherwise. *)
Definition catchValue (height : Z) (basket : string) (item : Item.t) : Z :=
  if decide (collides height basket item /\ Item.type item <> "bomb")
  then Item.score item else 0.

Definition caughtScore (height : Z) (basket : string) (l : list Item.t) : Z :=
  foldr (fun item acc => catchValue height basket item + acc) 0 l.

(** Some item of the list is a bomb that the basket catches. *)
Definition bombCaught (height : Z) (basket : string) (l : list Item.t) : Prop :=
  Exists (fun item => collides height basket item /\ Item.type item = "bomb") l.

(** The engine inside the frame callback, after [spawnSystem] and
    [updateItems] and before [checkCollisions]. *)
Definition midFrame (timestamp height : Z) (d : Draws) (g : GameEngine) : GameEngine :=
  updateItems height
    (spawnSystem timestamp d
       (set_lastTime (Some timestamp) (set_host (popFrame (host g)) g))).

(** ** The exact bomb probability, for comparison *)

(** The rational value of a double (0 for the non-finite ones). *)
Definition float_to_Q (f : float) : Q :=
  match Prim2SF f with
  | S754_finite s m e =>
      let v := if decide (0 <= e) then inject_Z (Z.pos m * 2 ^ e)
               else Qmake (Z.pos m) (Z.to_pos (2 ^ (- e))) in
      if s then Qopp v else v
  | _ => 0%Q
  end.

(** The formula of the design, [min(0.1 + level * 0.05, 0.4)], over the
    rationals. *)
Definition bombChance_exact (level : Z) : Q :=
  Qmin (Qmake 1 10 + inject_Z level * Qmake 1 20) (Qmake 2 5).

(** The double and the exact bomb probability within 10^-16 of each other,
    and the double not above the cap. *)
Definition bombChance_close (level : Z) : bool :=
  Qle_bool (Qabs (float_to_Q (bombChance level) - bombChance_exact level))
           (Qmake 1 (10 ^ 16))
  && PrimFloat.leb (bombChance level) 0.4%float.

(** ** Plays used as examples *)

(** The engine after a list of events played from the constructor. *)
Definition from_run (es : list Event) : GameEngine :=
  default constructed (run es constructed).

(** Draws that give an apple, or a bomb, in a lane. *)
Definition fruitDraw (lane : Idx3) (name : string) : Draws :=
  mkDraws lane 0.9%float I0 name.

Definition bombDraw (lane : Idx3) (name : string) : Draws :=
  mkDraws lane 0%float I0 name.

(** A frame in which nothing is due to spawn ignores its draws. *)
Definition noDraw : Draws := mkDraws I1 0.5%float I0 "".

Definition frameAt (height timestamp : Z) (d : Draws) : Event :=
  EvFrame timestamp height d.

(** [n] frames, 5 ms apart, after time [t0]. *)
Definition quietFrames (height t0 : Z) (n : nat) : list Event :=
  map (fun k => frameAt height (t0 + 5 * Z.of_nat k) noDraw) (seq 1 n).

(** What one sees of an item: its type and where it is. *)
Definition glance (item : Item.t) : string * Z := (Item.type item, Item.y item).

(** A start and nineteen clock ticks; a start and fifty-nine. *)
Definition nineteenSeconds : list Event := EvStart 0 :: repeat EvTimer 19.

Definition fiftyNineSeconds : list Event := EvStart 0 :: repeat EvTimer 59.

(** Five apples spawned in the left lane in five frames two seconds apart,
    the basket left in the centre; 148 more frames before the eleventh
    second; the clock then runs to the twentieth second (level 2). *)
Definition fiveApples : list Event :=
  [ EvStart 0;
    EvTimer; EvTimer; frameAt 400 2001 (fruitDraw I0 "a1");
    EvTimer; EvTimer; frameAt 400 4002 (fruitDraw I0 "a2");
    EvTimer; EvTimer; frameAt 400 6003 (fruitDraw I0 "a3");
    EvTimer; EvTimer; frameAt 400 8004 (fruitDraw I0 "a4");
    EvTimer; EvTimer; frameAt 400 10005 (fruitDraw I0 "a5") ]
  ++ quietFrames 400 10005 148
  ++ repeat EvTimer 10.

(** The play [fiveApples] followed by one frame after the twentieth
    second (which also spawns an apple in the centre lane). *)
Definition doubleMiss : list Event :=
  fiveApples ++ [ frameAt 400 20100 (fruitDraw I1 "a6") ].

(** An apple and then a pear in the left lane, one frame apart; 148 more
    frames before the fifth second bring the apple to the bottom edge of a
    game area 400 high; the clock then runs to the twentieth second
    (level 2, four pixels a frame). *)
Definition appleThenPear : list Event :=
  [ EvStart 0;
    EvTimer; EvTimer; frameAt 400 2001 (fruitDraw I0 "apple1");
    EvTimer; EvTimer; frameAt 400 4002 (mkDraws I0 0.9%float I1 "pear1") ]
  ++ quietFrames 400 4002 148
  ++ repeat EvTimer 16.

(** The play [appleThenPear] followed by one frame after the twentieth
    second (which also spawns an apple in the centre lane). *)
Definition passedOver : list Event :=
  appleThenPear ++ [ frameAt 400 20100 (fruitDraw I1 "apple2") ].

(** An apple and then a bomb in the left lane, one frame apart, let fall
    into the catch band of a game area 400 high; the basket then moves to
    the left lane. *)
Definition appleThenBomb : list Event :=
  [ EvStart 0;
    EvTimer; EvTimer; frameAt 400 2001 (fruitDraw I0 "apple1");
    EvTimer; EvTimer; frameAt 400 4002 (bombDraw I0 "bomb1") ]
  ++ quietFrames 400 4002 100
  ++ [ EvSetBasketZone "LEFT" ].

(** The play [appleThenBomb] followed by one more frame. *)
Definition caughtBomb : list Event :=
  appleThenBomb ++ [ frameAt 400 4600 noDraw ].

(** The apple of the play [appleThenBomb], one frame later. *)
Definition apple259 : Item.t := Item.mk "apple1" "apple" 100 "LEFT" 259.

(** ** Invariants *)

Definition scores_nonneg (g : GameEngine) : Prop :=
  Forall (fun item => 0 <= Item.score item) (items g).

(** While the engine is RUNNING it has a life left; lives never exceed 3,
    the score is never negative and no item carries a negative score. *)
Definition session_ok (g : GameEngine) : Prop :=
  (state g = RUNNING -> 1 <= lives g) /\ lives g <= 3 /\ 0 <= score g
  /\ scores_nonneg g.

(** The clock is between 0 and 60, the level and the speed are the ones
    the clock gives, and the interval is registered exactly while the
    engine is RUNNING. *)
Definition clock_ok (g : GameEngine) : Prop :=
  0 <= timeLeft g <= 60
  /\ level g = 1 + (60 - timeLeft g) / 20
  /\ baseSpeed g = level g + 2
  /\ ((state g <> RUNNING /\ intervals (host g) = [])
      \/ (state g = RUNNING /\ 1 <= timeLeft g
          /\ exists t, timerInterval g = Some t /\ intervals (host g) = [t])).

(** * Further definitions *)

(** What [updateItems] comes to on the list of items.  An item that
    leaves the game area is removed; the item behind it has then moved
    into the index just visited and is passed over ([skip]). *)
Fixpoint sweep (speed height : Z) (skip : bool) (l : list Item.t) : list Item.t :=
  match l with
  | [] => []
  | a :: rest =>
      if skip then a :: sweep speed height false rest
      else if decide (Item.y a + speed > height) then sweep speed height true rest
      else moved speed a :: sweep speed height false rest
  end.

(** The number of fruits (items that are not bombs) removed by that pass. *)
Fixpoint missedFruits (speed height : Z) (skip : bool) (l : list Item.t) : Z :=
  match l with
  | [] => 0
  | a :: rest =>
      if skip then missedFruits speed height false rest
      else if decide (Item.y a + speed > height)
           then (if decide (Item.type a <> "bomb") then 1 else 0)
                + missedFruits speed height true rest
      else missedFruits speed height false rest
  end.

(** The fields that neither pass of a frame writes to. *)
Definition sameRest (g g' : GameEngine) : Prop :=
  score g' = score g /\ level g' = level g /\ timeLeft g' = timeLeft g
  /\ basketZone g' = basketZone g /\ lastSpawnTime g' = lastSpawnTime g
  /\ spawnInterval g' = spawnInterval g /\ baseSpeed g' = baseSpeed g
  /\ lastTime g' = lastTime g.

(** The item a frame spawns, if one is due. *)
Definition spawned (timestamp : Z) (d : Draws) (g : GameEngine) : list Item.t :=
  if decide (timestamp - lastSpawnTime g > spawnInterval g)
  then match zones !! ix (zoneIx d), pickType (level g) d with
       | Some zone, Some ty =>
           [Item.mk (newId d) (ItemType.type ty) (ItemType.score ty) zone (-50)]
       | _, _ => []
       end
  else [].

(** An item as [spawnItem] makes them: in one of the three lanes, with a
    type and score of [itemTypes], and not above the spawn line. *)
Definition wellFormed (item : Item.t) : Prop :=
  Item.zone item ∈ zones
  /\ ItemType.mk (Item.type item) (Item.score item) ∈ itemTypes
  /\ -50 <= Item.y item.

(** The number of clock ticks in a list of events. *)
Definition isTimer (e : Event) : bool :=
  match e with EvTimer => true | _ => false end.

Definition ticks (es : list Event) : Z := Z.of_nat (length (List.filter isTimer es)).

(** In GAMEOVER a final score is shown and it is not above the score. *)
Definition finalShown (g : GameEngine) : Prop :=
  state g = GAMEOVER ->
  exists n, finalScoreDisplay (dom g) = Some n /\ n <= score g.

(** While the engine is RUNNING the frame callback it registered last is
    pending. *)
Definition loopPending (g : GameEngine) : Prop :=
  state g = RUNNING ->
  exists i, gameLoopId g = Some i /\ i ∈ frames (host g).

(** An apple spawned in the left lane; the classifier then reports a
    class that is no lane. *)
Definition laneUp : list Event :=
  [ EvStart 0; EvTimer; EvTimer; frameAt 400 2001 (fruitDraw I0 "apple1");
    EvSetBasketZone "UP" ].

(** ** main.js: from the classifier to the basket *)

(** One entry of the classifier's output. *)
Module Prediction.
Record t := mk { className : string; probability : float }.
End Prediction.

(** The callback given to [reduce]: [prev] stays while its probability is
    strictly greater (the comparison of two JS numbers). *)
Definition pickTop (prev current : Prediction.t) : Prediction.t :=
  if (Prediction.probability current <? Prediction.probability prev)%float
  then prev else current.

(** [predictions.reduce(...)] without an initial value: the first entry
    starts the fold, and the empty array raises a TypeError ([None]). *)
Definition reduceTop (predictions : list Prediction.t) : option Prediction.t :=
  match predictions with
  | [] => None
  | first :: rest => Some (fold_left pickTop rest first)
  end.

(** What [topResult.className] may hold. *)
Inductive ClassName :=
| NameString (s : string)   (* a string; the empty one is falsy *)
| NameFalsy                 (* undefined, null, 0, NaN or false *)
| NameOther.                (* another value: it has no [toUpperCase] *)

(** What [stabilizer.stabilize] hands back.  The class is not part of the
    repository, so nothing is assumed of it. *)
Inductive Stabilized :=
| StRaises                            (* it raises, or returns null or undefined *)
| StResult (className : ClassName).   (* an object, with what its className holds *)

Section Main.

(** [String.prototype.toUpperCase], the optional PredictionStabilizer and
    the element #pose-label (whether it is there) belong to the host
    page. *)
Variable toUpperCase : string -> string.
Variable stabilizer : option (list Prediction.t -> Stabilized).
Variable poseLabel : bool.

(** [handlePrediction], on the engine; [None] is a TypeError.  The entries
    of [predictions] are the classifier's, with a string for a name.  Of
    the label only the write is modelled (it raises when the element is
    missing), not the text. *)
Definition handlePrediction (predictions : list Prediction.t) (g : GameEngine)
  : option GameEngine :=
  let topResult :=
    match stabilizer with
    | Some stabilize => stabilize predictions
    | None =>
      match reduceTop predictions with
      | Some top => StResult (NameString (Prediction.className top))
      | None => StRaises
      end
    end in
  match topResult with
  | StRaises => None
  | StResult NameFalsy => Some g
  | StResult NameOther => None
  | StResult (NameString className) =>
    if decide (className = "") then Some g
    else if poseLabel then Some (setBasketZone (toUpperCase className) g)
    else None
  end.

End Main.

(** The ASCII part of [toUpperCase], for the plays. *)
Definition upperAscii (c : Ascii.ascii) : Ascii.ascii :=
  let n := Ascii.N_of_ascii c in
  if ((97 <=? n) && (n <=? 122))%N then Ascii.ascii_of_N (n - 32) else c.

Fixpoint upper (s : string) : string :=
  match s with
  | EmptyString => EmptyString
  | String c s => String (upperAscii c) (upper s)
  end.

(** A classifier output, for the plays. *)
Definition threePoses : list Prediction.t :=
  [Prediction.mk "Left" 0.25%float; Prediction.mk "Center" 0.5%float;
   Prediction.mk "Right" 0.5%float; Prediction.mk "Up" 0.125%float].

(** The page shows the engine's values: the four counters (no heart for
    lives below zero), the basket where its lane puts it, the overlay
    hidden while RUNNING and shown with the restart button in GAMEOVER. *)
Definition synced (g : GameEngine) : Prop :=
  scoreEl (dom g) = score g
  /\ levelEl (dom g) = level g
  /\ timeEl (dom g) = timeLeft g
  /\ livesEl (dom g) = Z.max 0 (lives g)
  /\ basketLeft (dom g) = leftPercent (basketZone g)
  /\ (state g = RUNNING -> overlayHidden (dom g) = true)
  /\ (state g = GAMEOVER ->
      overlayHidden (dom g) = false /\ startBtnText (dom g) = "RESTART").

(** * Properties *)

(** ** Runs *)

Lemma run_reachable es g g' :
  reachable g -> run es g = Some g' -> reachable g'.
Proof.
  revert g. induction es as [|e es IH]; intros g Hg Hrun; simpl in Hrun.
  - by injection Hrun as <-.
  - destruct (enabled e g) eqn:He; [|done].
    eapply IH; [|exact Hrun]. by apply reach_step.
Qed.

Lemma decided {P : Prop} {dec : Decision P} : bool_decide P = true -> P.
Proof. apply bool_decide_eq_true. Qed.

(** ** Lane input *)



(** Unfolding the straight-line methods down to field reads: the engines
    at hand are split into their fields, so that every assignment is
    evaluated once. *)
Ltac methods :=
  repeat match goal with g : GameEngine |- _ => destruct g end;
  repeat match goal with d : Dom |- _ => destruct d end;
  repeat match goal with h : Host |- _ => destruct h end;
  cbv beta iota zeta delta
    [timerTick levelUp resetGame setBasketZone gameOver stop updateUI
     cancelAnimationFrame clearInterval
     set_score set_level set_timeLeft set_lives set_state set_basketZone
     set_items set_lastSpawnTime set_spawnInterval set_baseSpeed
     set_gameLoopId set_timerInterval set_lastTime set_dom set_host
     score level timeLeft lives state basketZone items lastSpawnTime
     spawnInterval baseSpeed gameLoopId timerInterval lastTime dom host
     scoreEl levelEl timeEl livesEl basketLeft overlayHidden overlayTitle
     overlayDesc finalScoreDisplay startBtnText frames intervals fresh] in *.

(** ** The two loops *)

Section Loops.
Variable P : GameEngine -> Prop.

Lemma forEach_from_preserves height :
  (forall item k g, items g !! k = Some item -> P g -> P (updateItem height item k g)) ->
  forall n k g, P g -> P (forEach_from n k height g).
Proof.
  intros Hstep n. induction n as [|n IH]; intros k g HP; simpl; [done|].
  apply IH. destruct (items g !! k) eqn:Hk; [by apply Hstep | done].
Qed.

Lemma scanDown_preserves height :
  (forall item i g, items g !! i = Some item -> P g -> P (handleCatch item i g)) ->
  forall n g, P g -> P (scanDown n height g).
Proof.
  intros Hstep n. induction n as [|n IH]; intros g HP; simpl; [done|].
  apply IH. unfold collisionAt.
  destruct (items g !! n) eqn:Hn; [|done].
  case_decide; [by apply Hstep | done].
Qed.

(** A property kept by the item callbacks, by spawning and by the
    frame's bookkeeping is kept by the whole frame callback. *)
Hypothesis P_update : forall height item k g,
  items g !! k = Some item -> P g -> P (updateItem height item k g).
Hypothesis P_catch : forall item i g,
  items g !! i = Some item -> P g -> P (handleCatch item i g).
Hypothesis P_spawn : forall d g, P g -> P (spawnItem d g).
Hypothesis P_lastSpawnTime : forall v g, P g -> P (set_lastSpawnTime v g).
Hypothesis P_lastTime : forall v g, P g -> P (set_lastTime v g).
Hypothesis P_gameLoopId : forall v g, P g -> P (set_gameLoopId v g).
Hypothesis P_host : forall h g,
  intervals h = intervals (host g) -> P g -> P (set_host h g).

Lemma loop_preserves timestamp height d g :
  P g -> P (loop timestamp height d g).
Proof.
  intros HP. unfold loop. case_decide; [done|].
  apply P_gameLoopId, P_host; [done|].
  apply scanDown_preserves; [by intros; apply P_catch|].
  apply forEach_from_preserves; [by intros; apply P_update|].
  unfold spawnSystem. case_decide; [|by apply P_lastTime].
  by apply P_lastSpawnTime, P_spawn, P_lastTime.
Qed.

Lemma frame_preserves timestamp height d g :
  P g -> P (handle (EvFrame timestamp height d) g).
Proof. intros HP. simpl. by apply loop_preserves, P_host. Qed.

End Loops.

(** What the item callbacks and spawning leave alone. *)
Ltac callbacks :=
  unfold updateItem, handleMiss, handleCatch, spawnItem in *;
  repeat (case_decide || case_match); methods.

(** The frame callback touches neither the difficulty nor the clock nor
    the lane. *)
Lemma frame_keeps_pace timestamp height d g :
  let g' := handle (EvFrame timestamp height d) g in
  level g' = level g /\ baseSpeed g' = baseSpeed g
  /\ spawnInterval g' = spawnInterval g /\ timeLeft g' = timeLeft g
  /\ basketZone g' = basketZone g.
Proof.
  apply (frame_preserves (fun g' =>
    level g' = level g /\ baseSpeed g' = baseSpeed g
    /\ spawnInterval g' = spawnInterval g /\ timeLeft g' = timeLeft g
    /\ basketZone g' = basketZone g)); try done; intros; callbacks; done.
Qed.

(** ** The clock *)

(** What one clock tick does to each field. *)
Lemma timerTick_fields (g : GameEngine) :
  timeLeft (timerTick g) = timeLeft g - 1
  /\ items (timerTick g) = items g
  /\ score (timerTick g) = score g
  /\ lives (timerTick g) = lives g
  /\ basketZone (timerTick g) = basketZone g
  /\ level (timerTick g)
     = (if decide (Z.rem (60 - (timeLeft g - 1)) 20 = 0 /\ timeLeft g - 1 <> 60)
        then level g + 1 else level g)
  /\ baseSpeed (timerTick g)
     = (if decide (Z.rem (60 - (timeLeft g - 1)) 20 = 0 /\ timeLeft g - 1 <> 60)
        then baseSpeed g + 1 else baseSpeed g)
  /\ spawnInterval (timerTick g)
     = (if decide (Z.rem (60 - (timeLeft g - 1)) 20 = 0 /\ timeLeft g - 1 <> 60)
        then Z.max 500 (2000 - (level g + 1 - 1) * 300) else spawnInterval g)
  /\ state (timerTick g)
     = (if decide (timeLeft g - 1 <= 0) then GAMEOVER else state g)
  /\ overlayDesc (dom (timerTick g))
     = (if decide (timeLeft g - 1 <= 0) then "Time's Up!" else overlayDesc (dom g))
  /\ finalScoreDisplay (dom (timerTick g))
     = (if decide (timeLeft g - 1 <= 0) then Some (score g)
        else finalScoreDisplay (dom g)).
Proof. methods. repeat case_decide; done. Qed.

(** C7: the tick that brings [timeLeft] to 0 ends the session in GAMEOVER
    with the reason "Time's Up!", whatever the lives and the score; lives
    and score are as they were and the score is shown as final. *)
Theorem timerTick_time_up (g : GameEngine) :
  timeLeft g = 1 ->
  timeLeft (timerTick g) = 0
  /\ state (timerTick g) = GAMEOVER
  /\ overlayDesc (dom (timerTick g)) = "Time's Up!"
  /\ lives (timerTick g) = lives g
  /\ score (timerTick g) = score g
  /\ finalScoreDisplay (dom (timerTick g)) = Some (score g).
Proof.
  intros Ht.
  destruct (timerTick_fields g) as (-> & _ & -> & -> & _ & _ & _ & _ & -> & -> & ->).
  rewrite Ht. repeat case_decide; try lia. done.
Qed.

Lemma timerTick_time_up_witness :
  timeLeft (from_run fiftyNineSeconds) = 1
  /\ state (from_run fiftyNineSeconds) = RUNNING
  /\ state (timerTick (from_run fiftyNineSeconds)) = GAMEOVER
  /\ overlayDesc (dom (timerTick (from_run fiftyNineSeconds))) = "Time's Up!".
Proof.
  assert (H : timeLeft (from_run fiftyNineSeconds) = 1) by (vm_compute; reflexivity).
  split; [exact H|]. split; [vm_compute; reflexivity|].
  destruct (timerTick_time_up (from_run fiftyNineSeconds) H) as (_ & Hs & Hd & _).
  split; [exact Hs | exact Hd].
Defined.

Lemma timerTick_levelUp (g : GameEngine) (k : Z) :
  0 < k -> 60 - (timeLeft g - 1) = 20 * k ->
  level (timerTick g) = level g + 1
  /\ baseSpeed (timerTick g) = baseSpeed g + 1
  /\ spawnInterval (timerTick g) = Z.max 500 (2000 - (level (timerTick g) - 1) * 300).
Proof.
  intros Hk Hm.
  assert (Hrem : Z.rem (60 - (timeLeft g - 1)) 20 = 0).
  { rewrite Hm, Z.mul_comm. by apply Z.rem_mul. }
  destruct (timerTick_fields g) as (_ & _ & _ & _ & _ & -> & -> & -> & _).
  case_decide; [done | lia].
Qed.

Lemma timerTick_monotone (g : GameEngine) :
  level g <= level (timerTick g) /\ baseSpeed g <= baseSpeed (timerTick g).
Proof.
  destruct (timerTick_fields g) as (_ & _ & _ & _ & _ & -> & -> & _).
  case_decide; lia.
Qed.

Lemma timerTick_spawnInterval (g : GameEngine) :
  500 <= spawnInterval g -> 500 <= spawnInterval (timerTick g).
Proof.
  destruct (timerTick_fields g) as (_ & _ & _ & _ & _ & _ & _ & -> & _).
  case_decide; lia.
Qed.

Lemma spawnInterval_floor (g : GameEngine) :
  reachable g -> 500 <= spawnInterval g.
Proof.
  induction 1 as [|e g Hg IH He]; [by cbn|].
  destruct e as [now| |zone|ts h d|].
  - simpl. unfold start. case_decide; [done|]. by cbn.
  - done.
  - done.
  - by destruct (frame_keeps_pace ts h d g) as (_ & _ & -> & _).
  - by apply timerTick_spawnInterval.
Qed.

(** *** The clock in the reachable states *)

Lemma remove_id_singleton i : remove_id i [i] = [].
Proof. unfold remove_id. rewrite filter_cons_False; [done | by intros H]. Qed.

Lemma stop_intervals g :
  intervals (host g) = [] \/ (exists t, timerInterval g = Some t /\ intervals (host g) = [t]) ->
  intervals (host (stop g)) = [].
Proof.
  intros Hi. unfold stop. cbn.
  destruct (gameLoopId g), (timerInterval g) as [t'|]; cbn;
    destruct Hi as [->|(t & [= ->] & ->)]; try done; apply remove_id_singleton.
Qed.

Lemma clock_ok_intervals g :
  clock_ok g ->
  intervals (host g) = [] \/ (exists t, timerInterval g = Some t /\ intervals (host g) = [t]).
Proof. intros (_ & _ & _ & [[_ Hi]|(_ & _ & t & Hti & Hi)]); eauto. Qed.

(** Either way of leaving RUNNING clears the one interval. *)
Lemma clock_ok_stop g : clock_ok g -> clock_ok (stop g).
Proof.
  intros Hc. pose proof (stop_intervals g (clock_ok_intervals g Hc)) as Hi.
  destruct Hc as ([Ht Ht'] & Hl & Hb & _). unfold clock_ok.
  split_and!; [done..|]. left. by split.
Qed.

Lemma clock_ok_gameOver reason g : clock_ok g -> clock_ok (gameOver reason g).
Proof.
  intros Hc. pose proof (stop_intervals g (clock_ok_intervals g Hc)) as Hi.
  destruct Hc as ([Ht Ht'] & Hl & Hb & _). unfold clock_ok.
  split_and!; [done..|]. left. by split.
Qed.

(** The invariant reads only these fields. *)
Lemma clock_ok_same g g' :
  clock_ok g ->
  timeLeft g' = timeLeft g -> level g' = level g -> baseSpeed g' = baseSpeed g ->
  state g' = state g -> timerInterval g' = timerInterval g ->
  intervals (host g') = intervals (host g) ->
  clock_ok g'.
Proof.
  intros (Ht & Hl & Hb & Hi) E1 E2 E3 E4 E5 E6. unfold clock_ok.
  by rewrite E1, E2, E3, E4, E5, E6.
Qed.

Lemma clock_ok_frame timestamp height d g :
  clock_ok g -> clock_ok (handle (EvFrame timestamp height d) g).
Proof.
  apply (frame_preserves clock_ok).
  - intros h item k g0 _ Hc. unfold updateItem, handleMiss.
    repeat case_decide;
      try (apply clock_ok_gameOver); by eapply clock_ok_same.
  - intros item i g0 _ Hc. unfold handleCatch.
    case_decide; [apply clock_ok_gameOver|]; by eapply clock_ok_same.
  - intros d0 g0 Hc. unfold spawnItem. repeat case_match; try done;
      by eapply clock_ok_same.
  - intros v g0 Hc. by eapply clock_ok_same.
  - intros v g0 Hc. by eapply clock_ok_same.
  - intros v g0 Hc. by eapply clock_ok_same.
  - intros h g0 Hh Hc. by eapply clock_ok_same.
Qed.

Lemma timerTick_host g :
  timerInterval (timerTick g) = timerInterval g
  /\ intervals (host (timerTick g))
     = (if decide (timeLeft g - 1 <= 0) then intervals (host (stop g))
        else intervals (host g)).
Proof. methods. repeat case_decide; done. Qed.

Lemma clock_ok_timer g :
  enabled EvTimer g = true -> clock_ok g -> clock_ok (timerTick g).
Proof.
  intros He Hc. pose proof (stop_intervals g (clock_ok_intervals g Hc)) as Hstop.
  destruct Hc as ([Ht Ht'] & Hl & Hb & Hi).
  destruct Hi as [[_ Hi]|(Hs & Ht1 & t & Hti & Hi)].
  { simpl in He. rewrite Hi in He. by apply bool_decide_eq_true_1 in He. }
  destruct (timerTick_fields g) as (F1 & _ & _ & _ & _ & F2 & F3 & _ & F4 & _).
  destruct (timerTick_host g) as (F5 & F6).
  assert (Hrem : Z.rem (60 - (timeLeft g - 1)) 20 = (60 - (timeLeft g - 1)) mod 20)
    by (apply Z.rem_mod_nonneg; lia).
  unfold clock_ok. rewrite F1, F2, F3, F4, F5, F6, Hrem.
  clear F1 F2 F3 F4 F5 F6 Hrem.
  split_and!; [lia | lia | | |].
  - rewrite Hl.
    destruct (decide ((60 - (timeLeft g - 1)) mod 20 = 0 /\ timeLeft g - 1 <> 60))
      as [[Hup _]|Hup]; [|apply not_and_l in Hup as [Hup|Hup]; [|lia]];
      Z.div_mod_to_equations; lia.
  - case_decide; lia.
  - destruct (decide (timeLeft g - 1 <= 0)) as [Hz|Hz].
    + left. by split.
    + right. split_and!; [done | lia|]. by exists t.
Qed.

(** In every reachable state the clock is between 0 and 60, the level and
    the speed are the ones the clock gives, and the interval is registered
    exactly while the engine is RUNNING. *)
Lemma clock_ok_reachable g : reachable g -> clock_ok g.
Proof.
  induction 1 as [|e g Hg IH He].
  { unfold clock_ok. cbn. split_and!; try done. left. by split. }
  destruct e as [now| |zone|ts h d|].
  - simpl. unfold start. case_decide as Hs; [done|].
    destruct IH as (_ & _ & _ & [[_ Hi]|[Hr _]]); [|done].
    unfold clock_ok. cbn. rewrite Hi. cbn.
    split_and!; try done. right. split_and!; try done. by eexists.
  - by apply clock_ok_stop.
  - by eapply clock_ok_same.
  - by apply clock_ok_frame.
  - by apply clock_ok_timer.
Qed.

Lemma level_bounds g :
  reachable g ->
  1 <= level g <= 4 /\ 3 <= baseSpeed g <= 6 /\ 0 <= timeLeft g <= 60
  /\ (state g = RUNNING -> 1 <= timeLeft g /\ level g <= 3).
Proof.
  intros Hg. destruct (clock_ok_reachable g Hg) as ([Ht Ht'] & Hl & Hb & Hi).
  assert (Hlv : 1 <= level g <= 4) by (rewrite Hl; Z.div_mod_to_equations; lia).
  split; [done|]. split; [lia|]. split; [done|].
  intros Hs. destruct Hi as [[Hn _]|(_ & Ht1 & _)]; [done|].
  split; [done|]. rewrite Hl. Z.div_mod_to_equations. lia.
Qed.

(** C6: a clock tick after which [60 - timeLeft] is a positive multiple of
    20 raises [level] by 1 and [baseSpeed] by 1 and sets [spawnInterval] to
    [max 500 (2000 - (level - 1) * 300)] at the new level; no handler but
    [start], which opens a new session, lowers [level] or [baseSpeed]; in
    every reachable state [spawnInterval] is at least 500, the level is 1
    plus the number of whole 20 seconds elapsed, and [baseSpeed] is the
    level plus 2. *)
Theorem level_up_every_20_seconds :
  (forall g k, 0 < k -> 60 - (timeLeft g - 1) = 20 * k ->
     level (handle EvTimer g) = level g + 1
     /\ baseSpeed (handle EvTimer g) = baseSpeed g + 1
     /\ spawnInterval (handle EvTimer g)
        = Z.max 500 (2000 - (level (handle EvTimer g) - 1) * 300))
  /\ (forall e g, (forall now, e <> EvStart now) ->
        level g <= level (handle e g) /\ baseSpeed g <= baseSpeed (handle e g))
  /\ (forall g, reachable g ->
        500 <= spawnInterval g
        /\ level g = 1 + (60 - timeLeft g) / 20
        /\ baseSpeed g = level g + 2).
Proof.
  split; [|split].
  - intros g k. apply timerTick_levelUp.
  - intros [now| |zone|ts h d|] g Hns.
    + by destruct (Hns now).
    + done.
    + done.
    + destruct (frame_keeps_pace ts h d g) as (-> & -> & _). lia.
    + apply timerTick_monotone.
  - intros g Hg. split; [by apply spawnInterval_floor|].
    destruct (clock_ok_reachable g Hg) as (_ & Hl & Hb & _). by split.
Qed.

Lemma level_up_every_20_seconds_witness :
  60 - (timeLeft (from_run nineteenSeconds) - 1) = 20 * 1
  /\ level (handle EvTimer (from_run nineteenSeconds))
     = level (from_run nineteenSeconds) + 1.
Proof.
  assert (H : 60 - (timeLeft (from_run nineteenSeconds) - 1) = 20 * 1)
    by (vm_compute; reflexivity).
  split; [exact H|].
  refine (proj1 (proj1 level_up_every_20_seconds _ 1 _ H)). lia.
Defined.

(** ** Starting *)

(** C8: [start()] on a RUNNING engine returns it as it is (no field changes
    and nothing is registered with the host); in any other state it resets
    the session to its defaults, enters RUNNING and registers one frame
    callback and one interval. *)
Theorem start_noop_or_reset (now : Z) (g : GameEngine) :
  (state g = RUNNING -> start now g = g)
  /\ (state g <> RUNNING ->
      let g' := start now g in
      score g' = 0 /\ level g' = 1 /\ timeLeft g' = 60 /\ lives g' = 3
      /\ items g' = [] /\ spawnInterval g' = 2000 /\ baseSpeed g' = 3
      /\ basketZone g' = "CENTER" /\ state g' = RUNNING
      /\ lastSpawnTime g' = now
      /\ frames (host g') = frames (host g) ++ [fresh (host g)]
      /\ intervals (host g') = intervals (host g) ++ [S (fresh (host g))]).
Proof.
  unfold start. split; intros Hs; case_decide; done.
Qed.

Lemma start_noop_or_reset_witness :
  state constructed <> RUNNING
  /\ lives (start 0 constructed) = 3
  /\ state (start 0 constructed) = RUNNING
  /\ start 7 (start 0 constructed) = start 0 constructed.
Proof.
  assert (H : state constructed <> RUNNING) by discriminate.
  assert (H' : state (start 0 constructed) = RUNNING) by reflexivity.
  split; [exact H|].
  destruct (proj2 (start_noop_or_reset 0 constructed) H)
    as (_ & _ & _ & Hl & _ & _ & _ & _ & Hs & _).
  split; [exact Hl|]. split; [exact Hs|].
  exact (proj1 (start_noop_or_reset 7 (start 0 constructed)) H').
Defined.

(** ** Collision *)

Lemma caughtScore_app height basket l1 l2 :
  caughtScore height basket (l1 ++ l2)
  = caughtScore height basket l1 + caughtScore height basket l2.
Proof. induction l1 as [|x l1 IH]; simpl; [done | rewrite IH; lia]. Qed.

Lemma handleCatch_effect item i g :
  items (handleCatch item i g) = delete i (items g)
  /\ basketZone (handleCatch item i g) = basketZone g
  /\ lives (handleCatch item i g) = lives g
  /\ score (handleCatch item i g)
     = score g + (if decide (Item.type item = "bomb") then 0 else Item.score item).
Proof. unfold handleCatch. case_decide; methods; repeat split; lia. Qed.

(** The scan of the indices below [n], from [n - 1] down to 0: the items
    below [n] that collide are gone, the others and the items from [n] on
    are where they were. *)
Lemma scanDown_spec height n : forall g,
  (n <= length (items g))%nat ->
  let b := basketZone g in
  items (scanDown n height g)
  = filter (fun item => ~ collides height b item) (take n (items g)) ++ drop n (items g)
  /\ score (scanDown n height g) = score g + caughtScore height b (take n (items g))
  /\ basketZone (scanDown n height g) = b.
Proof.
  induction n as [|n IH]; intros g Hn; simpl.
  { cbn. repeat split. lia. }
  destruct (lookup_lt_is_Some_2 (items g) n) as [item Hitem]; [lia|].
  unfold collisionAt. rewrite Hitem.
  rewrite (take_S_r _ _ _ Hitem), filter_app, caughtScore_app.
  destruct (decide (collides height (basketZone g) item)) as [Hc|Hc].
  - destruct (handleCatch_effect item n g) as (Hit & Hb & _ & Hsc).
    destruct (IH (handleCatch item n g)) as (IHit & IHsc & IHb).
    { rewrite Hit, length_delete; [lia | eauto]. }
    rewrite Hb in IHit, IHsc, IHb. rewrite IHit, IHsc, IHb, Hit, Hsc.
    rewrite delete_take_drop.
    rewrite take_app_length', drop_app_length'
      by (rewrite length_take_le; lia).
    rewrite filter_cons_False by tauto. simpl. unfold catchValue.
    repeat split; [by rewrite app_nil_r|].
    repeat case_decide; try tauto; lia.
  - destruct (IH g) as (IHit & IHsc & IHb); [lia|].
    rewrite IHit, IHsc, IHb, (drop_S _ _ _ Hitem).
    rewrite filter_cons_True by done. simpl. unfold catchValue.
    repeat split; [by rewrite <- app_assoc|].
    case_decide; [tauto | lia].
Qed.

Lemma checkCollisions_spec height g :
  items (checkCollisions height g)
    = filter (fun item => ~ collides height (basketZone g) item) (items g)
  /\ score (checkCollisions height g)
    = score g + caughtScore height (basketZone g) (items g).
Proof.
  destruct (scanDown_spec height (length (items g)) g) as (Hit & Hsc & _); [lia|].
  rewrite firstn_all, drop_all, app_nil_r in Hit. rewrite firstn_all in Hsc.
  by split.
Qed.

(** C5: after [checkCollisions] the items left are exactly those that did
    not collide (vertical extent [y, y + 50] meeting the band
    [height - 100, height - 20], lane equal to the basket's), in their
    order; the score has grown by the scores of the fruits that collided;
    so every colliding fruit is gone from the list, and each catch of a
    fruit adds exactly that item's [score]. *)
Theorem checkCollisions_catches (height : Z) (g : GameEngine) :
  let g' := checkCollisions height g in
  items g' = filter (fun item => ~ collides height (basketZone g) item) (items g)
  /\ score g' = score g + caughtScore height (basketZone g) (items g)
  /\ (forall item, item ∈ items g -> Item.type item <> "bomb" ->
        collides height (basketZone g) item ->
        (item ∉ items g') /\ catchValue height (basketZone g) item = Item.score item)
  /\ (forall item i, Item.type item <> "bomb" ->
        score (handleCatch item i g) = score g + Item.score item
        /\ items (handleCatch item i g) = delete i (items g)).
Proof.
  destruct (checkCollisions_spec height g) as (Hit & Hsc).
  cbn zeta. repeat split.
  - exact Hit.
  - exact Hsc.
  - rewrite Hit, list_elem_of_filter. tauto.
  - unfold catchValue. case_decide; tauto.
  - destruct (handleCatch_effect item i g) as (_ & _ & _ & ->). by case_decide.
  - apply handleCatch_effect.
Qed.

Lemma checkCollisions_catches_witness :
  apple259 ∈ items (midFrame 4600 400 noDraw (from_run appleThenBomb))
  /\ collides 400 "LEFT" apple259
  /\ apple259 ∉ items (checkCollisions 400 (midFrame 4600 400 noDraw (from_run appleThenBomb))).
Proof.
  assert (Hz : basketZone (midFrame 4600 400 noDraw (from_run appleThenBomb)) = "LEFT")
    by (vm_compute; reflexivity).
  assert (Hin : apple259 ∈ items (midFrame 4600 400 noDraw (from_run appleThenBomb)))
    by (apply decided; vm_compute; reflexivity).
  assert (Hc : collides 400 "LEFT" apple259)
    by (apply decided; vm_compute; reflexivity).
  split; [exact Hin|]. split; [exact Hc|].
  refine (proj1 (proj1 (proj2 (proj2 (checkCollisions_catches 400 _))) apple259 Hin _ _)).
  - discriminate.
  - rewrite Hz. exact Hc.
Defined.

(** ** Catching a bomb *)

Lemma handleCatch_session item i g :
  state (handleCatch item i g)
    = (if decide (Item.type item = "bomb") then GAMEOVER else state g)
  /\ overlayDesc (dom (handleCatch item i g))
    = (if decide (Item.type item = "bomb") then "You caught a Bomb!"
       else overlayDesc (dom g))
  /\ finalScoreDisplay (dom (handleCatch item i g))
    = (if decide (Item.type item = "bomb") then Some (score g)
       else finalScoreDisplay (dom g)).
Proof. unfold handleCatch. case_decide; methods; done. Qed.

Lemma bombCaught_snoc height basket l item :
  bombCaught height basket (l ++ [item])
  <-> bombCaught height basket l
      \/ (collides height basket item /\ Item.type item = "bomb").
Proof.
  unfold bombCaught. rewrite Exists_app, Exists_cons, Exists_nil. tauto.
Qed.

(** The scan of the indices below [n] never touches the lives; it ends in
    GAMEOVER with the bomb's reason if one of these items is a bomb that
    collides, and leaves state and reason alone otherwise. *)
Lemma scanDown_session height n : forall g,
  (n <= length (items g))%nat ->
  lives (scanDown n height g) = lives g
  /\ (bombCaught height (basketZone g) (take n (items g)) ->
      state (scanDown n height g) = GAMEOVER
      /\ overlayDesc (dom (scanDown n height g)) = "You caught a Bomb!")
  /\ (~ bombCaught height (basketZone g) (take n (items g)) ->
      state (scanDown n height g) = state g
      /\ overlayDesc (dom (scanDown n height g)) = overlayDesc (dom g)).
Proof.
  induction n as [|n IH]; intros g Hn; simpl.
  { split_and!; [done| |done]. unfold bombCaught. by rewrite Exists_nil. }
  destruct (lookup_lt_is_Some_2 (items g) n) as [item Hitem]; [lia|].
  unfold collisionAt. rewrite Hitem, (take_S_r _ _ _ Hitem), bombCaught_snoc.
  destruct (decide (collides height (basketZone g) item)) as [Hc|Hc].
  - destruct (handleCatch_effect item n g) as (Hit & Hb & Hl & _).
    destruct (handleCatch_session item n g) as (Hs & Hd & _).
    destruct (IH (handleCatch item n g)) as (IHl & IHy & IHn).
    { rewrite Hit, length_delete; [lia | eauto]. }
    rewrite Hb, Hit, delete_take_drop, take_app_length' in IHy, IHn
      by (rewrite length_take_le; lia).
    rewrite IHl, Hl. split; [done|].
    destruct (decide (bombCaught height (basketZone g) (take n (items g))))
      as [Hbc|Hbc].
    + split; [intros _ | tauto]. by apply IHy.
    + destruct (IHn Hbc) as [-> ->]. rewrite Hs, Hd.
      split; [intros [?|[_ Hbomb]]; [done | by case_decide] |].
      intros Hnot. case_decide; [tauto | done].
  - destruct (IH g) as (IHl & IHy & IHn); [lia|].
    split; [done|]. split; [|tauto].
    intros [Hbc|[? _]]; [by apply IHy | done].
Qed.

(** C3 (as the code has it): a bomb that collides puts the engine in
    GAMEOVER with the reason "You caught a Bomb!"; the catch itself leaves
    score and lives as they are and removes the bomb.  The scan is not cut
    short by it: whatever the order of the items, every item that collides
    is removed and every fruit among them is scored, and the lives are
    untouched. *)
Theorem bomb_catch_ends_session (height : Z) (g : GameEngine) :
  let g' := checkCollisions height g in
  (forall item i, Item.type item = "bomb" ->
     state (handleCatch item i g) = GAMEOVER
     /\ overlayDesc (dom (handleCatch item i g)) = "You caught a Bomb!"
     /\ score (handleCatch item i g) = score g
     /\ lives (handleCatch item i g) = lives g
     /\ items (handleCatch item i g) = delete i (items g))
  /\ (bombCaught height (basketZone g) (items g) ->
      state g' = GAMEOVER /\ overlayDesc (dom g') = "You caught a Bomb!")
  /\ lives g' = lives g
  /\ items g' = filter (fun item => ~ collides height (basketZone g) item) (items g)
  /\ score g' = score g + caughtScore height (basketZone g) (items g).
Proof.
  cbn zeta. split_and!.
  - intros item i Hb.
    destruct (handleCatch_effect item i g) as (-> & _ & -> & ->).
    destruct (handleCatch_session item i g) as (-> & -> & _).
    destruct (decide (Item.type item = "bomb")); [|done].
    split_and!; try done; lia.
  - intros Hbc. unfold checkCollisions.
    destruct (scanDown_session height (length (items g)) g) as (_ & Hy & _); [lia|].
    apply Hy. by rewrite firstn_all.
  - unfold checkCollisions.
    by destruct (scanDown_session height (length (items g)) g) as (-> & _); [lia|].
  - apply checkCollisions_spec.
  - apply checkCollisions_spec.
Qed.

Lemma bomb_catch_ends_session_witness :
  bombCaught 400 "LEFT" (items (midFrame 4600 400 noDraw (from_run appleThenBomb)))
  /\ state (checkCollisions 400 (midFrame 4600 400 noDraw (from_run appleThenBomb)))
     = GAMEOVER.
Proof.
  assert (Hz : basketZone (midFrame 4600 400 noDraw (from_run appleThenBomb)) = "LEFT")
    by (vm_compute; reflexivity).
  assert (Hb : bombCaught 400 "LEFT"
                 (items (midFrame 4600 400 noDraw (from_run appleThenBomb))))
    by (unfold bombCaught; apply decided; vm_compute; reflexivity).
  split; [exact Hb|].
  refine (proj1 (proj1 (proj2 (bomb_catch_ends_session 400 _)) _)).
  rewrite Hz. exact Hb.
Defined.

(** ** Lives and score *)

Lemma from_run_reachable es : reachable (from_run es).
Proof.
  unfold from_run. destruct (run es constructed) as [g|] eqn:Hrun; simpl.
  - eapply run_reachable; [apply reach_init | exact Hrun].
  - apply reach_init.
Qed.

Lemma pickType_score lvl d ty :
  pickType lvl d = Some ty -> 0 <= ItemType.score ty.
Proof.
  unfold pickType. destruct (PrimFloat.ltb _ _).
  - cbn. intros [= <-]. by cbn.
  - destruct (fruitIx d); cbn; intros [= <-]; by cbn.
Qed.

(** Spawning never meets an undefined lane or item type. *)
Lemma spawnItem_defined d g :
  exists item, items (spawnItem d g) = items g ++ [item]
    /\ Item.y item = -50 /\ 0 <= Item.score item.
Proof.
  unfold spawnItem.
  assert (Hz : is_Some (zones !! ix (zoneIx d))) by (destruct (zoneIx d); cbn; eauto).
  assert (Ht : is_Some (pickType (level g) d)).
  { unfold pickType. destruct (PrimFloat.ltb _ _); [cbn; eauto|].
    destruct (fruitIx d); cbn; eauto. }
  destruct Hz as [z ->], Ht as [ty Hty]. rewrite Hty. cbn.
  eexists. repeat split. cbn. by eapply pickType_score.
Qed.

Lemma scores_nonneg_lookup g i item :
  scores_nonneg g -> items g !! i = Some item -> 0 <= Item.score item.
Proof. intros Hf Hi. exact (proj1 (Forall_lookup _ _) Hf i item Hi). Qed.

Lemma spawnItem_scores d g : scores_nonneg g -> scores_nonneg (spawnItem d g).
Proof.
  unfold scores_nonneg. destruct (spawnItem_defined d g) as (item & -> & _ & Hs).
  intros Hf. apply Forall_app. split; [done | by constructor].
Qed.

Lemma updateItem_scores height item k g :
  items g !! k = Some item -> scores_nonneg g ->
  scores_nonneg (updateItem height item k g).
Proof.
  unfold scores_nonneg. intros Hk Hf.
  pose proof (scores_nonneg_lookup g k item Hf Hk) as Hs.
  callbacks; auto using Forall_delete, Forall_insert.
Qed.

Lemma handleCatch_scores item i g :
  scores_nonneg g -> scores_nonneg (handleCatch item i g).
Proof. unfold scores_nonneg. intros Hf. callbacks; auto using Forall_delete. Qed.

Lemma session_ok_frame timestamp height d g :
  session_ok g -> session_ok (handle (EvFrame timestamp height d) g).
Proof.
  apply (frame_preserves session_ok); try done.
  - intros h item k g0 Hk (Hl & Hm & Hs & Hf). unfold session_ok.
    split_and!; [| | |by apply updateItem_scores]; callbacks; try done; lia.
  - intros item i g0 Hi (Hl & Hm & Hs & Hf). unfold session_ok.
    pose proof (scores_nonneg_lookup g0 i item Hf Hi).
    split_and!; [| | |by apply handleCatch_scores]; callbacks; try done; lia.
  - intros d0 g0 (Hl & Hm & Hs & Hf). unfold session_ok.
    split_and!; [| | |by apply spawnItem_scores];
      unfold spawnItem; repeat case_match; done.
Qed.

Lemma session_ok_reachable g : reachable g -> session_ok g.
Proof.
  induction 1 as [|e g Hg IH He].
  { unfold session_ok, scores_nonneg. cbn. split_and!; try done. }
  destruct e as [now| |zone|ts h d|].
  - destruct IH as (Hl & Hm & Hs & Hf). simpl. unfold start.
    case_decide; [done|]. unfold session_ok, scores_nonneg. cbn.
    split_and!; try done.
  - destruct IH as (Hl & Hm & Hs & Hf). unfold session_ok. split_and!; done.
  - exact IH.
  - by apply session_ok_frame.
  - destruct IH as (Hl & Hm & Hs & Hf). unfold session_ok, scores_nonneg.
    simpl. methods. repeat case_decide; cbn; split_and!; done.
Qed.

Lemma frame_monotone timestamp height d g :
  scores_nonneg g ->
  let g' := handle (EvFrame timestamp height d) g in
  score g <= score g' /\ lives g' <= lives g.
Proof.
  intros Hf.
  enough (scores_nonneg (handle (EvFrame timestamp height d) g)
          /\ score g <= score (handle (EvFrame timestamp height d) g)
          /\ lives (handle (EvFrame timestamp height d) g) <= lives g) by (cbn zeta; tauto).
  apply (frame_preserves (fun g' =>
    scores_nonneg g' /\ score g <= score g' /\ lives g' <= lives g));
    try done; try lia.
  - intros h item k g0 Hk (Hf0 & Hs & Hl).
    split; [by apply updateItem_scores|]. callbacks; lia.
  - intros item i g0 Hi (Hf0 & Hs & Hl).
    pose proof (scores_nonneg_lookup g0 i item Hf0 Hi).
    split; [by apply handleCatch_scores|]. callbacks; lia.
  - intros d0 g0 (Hf0 & Hs & Hl).
    split; [by apply spawnItem_scores|]. unfold spawnItem; repeat case_match; done.
Qed.

(** C1 (as the code has it): in every reachable state in which the engine
    is RUNNING there is at least one life left, lives never exceed 3 and
    the score is never negative; and no frame tick, clock tick or lane
    update lowers the score or raises the lives. *)
Theorem lives_and_score (g : GameEngine) :
  reachable g ->
  (state g = RUNNING -> 1 <= lives g)
  /\ lives g <= 3 /\ 0 <= score g
  /\ (forall e, isTick e = true ->
        score g <= score (handle e g) /\ lives (handle e g) <= lives g).
Proof.
  intros Hg. destruct (session_ok_reachable g Hg) as (Hl & Hm & Hs & Hf).
  split_and!; try done.
  intros [now| |zone|ts h d|] He; try done.
  - by apply frame_monotone.
  - simpl. methods. repeat case_decide; cbn; lia.
Qed.

Lemma lives_and_score_witness :
  reachable (from_run fiveApples)
  /\ state (from_run fiveApples) = RUNNING
  /\ 1 <= lives (from_run fiveApples).
Proof.
  split; [apply from_run_reachable|].
  assert (Hs : state (from_run fiveApples) = RUNNING) by (vm_compute; reflexivity).
  split; [exact Hs|].
  exact (proj1 (lives_and_score (from_run fiveApples) (from_run_reachable _)) Hs).
Defined.

(** C1 fails as stated.  After the play [fiveApples] the engine is RUNNING
    with one life and the apples a3, a4, a5 at 400, 400 and 397 in a game
    area 400 high, falling 4 a frame.  In the next frame a3 is missed (lives
    0, game over), a4 is passed over, and a5 is missed too: lives is -1. *)
Lemma lives_go_negative :
  reachable (from_run doubleMiss)
  /\ lives (from_run fiveApples) = 1
  /\ state (from_run fiveApples) = RUNNING
  /\ map Item.y (items (from_run fiveApples)) = [400; 400; 397]
  /\ state (from_run doubleMiss) = GAMEOVER
  /\ lives (from_run doubleMiss) = -1
  /\ ~ (forall g, reachable g -> 0 <= lives g).
Proof.
  split; [apply from_run_reachable|].
  split_and!; try (by vm_compute).
  intros H. specialize (H _ (from_run_reachable doubleMiss)).
  vm_compute in H. by apply H.
Qed.

(** ** Items passed over by the simulation pass *)

Lemma forEach_from_preserves_above (P : GameEngine -> Prop) height lo :
  (forall item k g, (lo <= k)%nat -> items g !! k = Some item ->
     P g -> P (updateItem height item k g)) ->
  forall n k g, (lo <= k)%nat -> P g -> P (forEach_from n k height g).
Proof.
  intros Hstep n. induction n as [|n IH]; intros k g Hk HP; simpl; [done|].
  apply IH; [lia|]. destruct (items g !! k) eqn:Hlk; [by apply Hstep | done].
Qed.

Lemma forEach_from_S n k height g :
  forEach_from (S n) k height g
  = forEach_from n (S k) height
      (match items g !! k with
       | Some item => updateItem height item k g
       | None => g
       end).
Proof. reflexivity. Qed.

Lemma updateItem_head_missed height g a rest :
  items g = a :: rest ->
  Item.y a + baseSpeed g > height ->
  items (updateItem height a 0 g) = rest.
Proof.
  intros Hit Hy. unfold updateItem, handleMiss. cbn [Item.set_y Item.y].
  repeat case_decide; methods; rewrite ?Hit; try done; lia.
Qed.

Lemma updateItem_no_miss height item k g :
  Item.y item + baseSpeed g <= height ->
  updateItem height item k g
  = set_items (<[k := moved (baseSpeed g) item]> (items g)) g.
Proof.
  intros Hy. unfold updateItem, moved. cbn [Item.set_y Item.y].
  case_decide; [lia | done].
Qed.

Lemma forEach_from_no_miss height l : forall n k g,
  Forall (fun item => Item.y item + baseSpeed g <= height) l ->
  (n + k = length l)%nat ->
  items g = map (moved (baseSpeed g)) (take k l) ++ drop k l ->
  forEach_from n k height g = set_items (map (moved (baseSpeed g)) l) g.
Proof.
  induction n as [|n IH]; intros k g Hall Hlen Hit; simpl.
  - rewrite take_ge, drop_ge, app_nil_r in Hit by lia.
    rewrite <- Hit. by destruct g.
  - destruct (lookup_lt_is_Some_2 l k) as [item Hitem]; [lia|].
    assert (Hk : length (map (moved (baseSpeed g)) (take k l)) = k).
    { rewrite length_map, length_take_le; lia. }
    assert (Hlook : items g !! k = Some item).
    { rewrite Hit, lookup_app_r, Hk, Nat.sub_diag, (drop_S _ _ _ Hitem) by lia. done. }
    rewrite Hlook, updateItem_no_miss
      by exact (proj1 (Forall_lookup _ _) Hall k item Hitem).
    rewrite IH; cbn [baseSpeed set_items]; try done; [lia|].
    cbn [items set_items]. rewrite Hit, (take_S_r _ _ _ Hitem), (drop_S _ _ _ Hitem), map_app.
    rewrite <- app_assoc. simpl.
    rewrite insert_app_r_alt, Hk, Nat.sub_diag by lia. done.
Qed.

(** In a pass in which no item leaves the game area, every item moves down
    by [baseSpeed] and nothing else changes. *)
Lemma updateItems_moves_all height g :
  Forall (fun item => Item.y item + baseSpeed g <= height) (items g) ->
  updateItems height g = set_items (map (moved (baseSpeed g)) (items g)) g.
Proof.
  intros Hall. unfold updateItems.
  apply forEach_from_no_miss; [done | lia | done].
Qed.

(** When the first item of the list is missed, the item behind it is not
    visited in that pass: it keeps its position, however close to the
    bottom it is. *)
Lemma updateItems_passes_over height g a b rest :
  items g = a :: b :: rest ->
  Item.y a + baseSpeed g > height ->
  exists rest', items (updateItems height g) = b :: rest'.
Proof.
  intros Hit Hy. unfold updateItems.
  replace (length (items g)) with (S (S (length rest))) by (by rewrite Hit).
  rewrite forEach_from_S.
  replace (items g !! 0%nat) with (Some a) by (by rewrite Hit).
  apply (forEach_from_preserves_above (fun g' => exists r, items g' = b :: r) height 1).
  - intros item k g0 Hk _ [r Hr]. destruct k as [|k]; [lia|].
    unfold updateItem, handleMiss.
    repeat case_decide; methods; rewrite Hr; simpl; eauto.
  - lia.
  - exists rest. by eapply updateItem_head_missed.
Qed.

(** C4 fails on the code.  After the play [appleThenPear] the engine is
    RUNNING at level 2 (4 a frame) with three lives, an apple at 400 and a
    pear at 397 in a game area 400 high.  In the next frame the apple is
    moved to 404 and removed for one life; the pear, which would have come
    to 401 and been the second miss, is neither moved nor removed. *)
Theorem pear_passed_over :
  reachable (from_run appleThenPear)
  /\ state (from_run appleThenPear) = RUNNING
  /\ baseSpeed (from_run appleThenPear) = 4
  /\ lives (from_run appleThenPear) = 3
  /\ map glance (items (from_run appleThenPear)) = [("apple", 400); ("pear", 397)]
  /\ run passedOver constructed = Some (from_run passedOver)
  /\ map glance (items (from_run passedOver)) = [("pear", 397); ("apple", -46)]
  /\ lives (from_run passedOver) = 2.
Proof.
  split; [apply from_run_reachable|].
  split_and!; by vm_compute.
Qed.

(** ** A bomb caught in the middle of a scan *)

Lemma loop_running timestamp height d g :
  state g = RUNNING ->
  items (handle (EvFrame timestamp height d) g)
    = items (checkCollisions height (midFrame timestamp height d g))
  /\ score (handle (EvFrame timestamp height d) g)
    = score (checkCollisions height (midFrame timestamp height d g)).
Proof.
  intros Hs. simpl. unfold loop. cbn [state set_host].
  case_decide; [done|]. destruct (requestAnimationFrame _). done.
Qed.

(** C3 fails as stated.  After the play [appleThenBomb] the engine is
    RUNNING with the basket in the left lane, and an apple and a bomb in
    that lane inside the catch band.  In the next frame the scan meets the
    bomb first (index 1): game over, score 0 shown as final.  It then goes
    on to index 0: the apple is removed and the score becomes 100. *)
Lemma scan_goes_on_after_bomb :
  let g := midFrame 4600 400 noDraw (from_run appleThenBomb) in
  reachable (from_run appleThenBomb)
  /\ state g = RUNNING /\ basketZone g = "LEFT" /\ score g = 0
  /\ map glance (items g) = [("apple", 259); ("bomb", 256)]
  /\ checkCollisions 400 g = scanDown 1 400 (collisionAt 400 1 g)
  /\ state (collisionAt 400 1 g) = GAMEOVER
  /\ overlayDesc (dom (collisionAt 400 1 g)) = "You caught a Bomb!"
  /\ finalScoreDisplay (dom (collisionAt 400 1 g)) = Some 0
  /\ score (collisionAt 400 1 g) = 0
  /\ map glance (items (collisionAt 400 1 g)) = [("apple", 259)]
  /\ items (scanDown 1 400 (collisionAt 400 1 g)) = []
  /\ score (scanDown 1 400 (collisionAt 400 1 g)) = 100
  /\ score (from_run caughtBomb) = 100
  /\ items (from_run caughtBomb) = []
  /\ finalScoreDisplay (dom (from_run caughtBomb)) = Some 0.
Proof.
  cbn zeta. split; [apply from_run_reachable|].
  split_and!; by vm_compute.
Qed.

(** ** The items after game over *)

Lemma gameOver_fields reason g :
  items (gameOver reason g) = items g
  /\ score (gameOver reason g) = score g
  /\ level (gameOver reason g) = level g
  /\ timeLeft (gameOver reason g) = timeLeft g
  /\ lives (gameOver reason g) = lives g
  /\ basketZone (gameOver reason g) = basketZone g
  /\ spawnInterval (gameOver reason g) = spawnInterval g
  /\ baseSpeed (gameOver reason g) = baseSpeed g
  /\ state (gameOver reason g) = GAMEOVER
  /\ overlayTitle (dom (gameOver reason g)) = "GAME OVER"
  /\ overlayDesc (dom (gameOver reason g)) = reason
  /\ finalScoreDisplay (dom (gameOver reason g)) = Some (score g)
  /\ startBtnText (dom (gameOver reason g)) = "RESTART"
  /\ overlayHidden (dom (gameOver reason g)) = false.
Proof. methods. repeat split. Qed.

Lemma handle_not_running e g :
  state g <> RUNNING -> (forall now, e <> EvStart now) ->
  items (handle e g) = items g /\ state (handle e g) <> RUNNING.
Proof.
  intros Hs Hns. destruct e as [now| |zone|ts h d|].
  - by destruct (Hns now).
  - done.
  - done.
  - simpl. unfold loop. cbn [state set_host]. by case_decide.
  - simpl. methods. repeat case_decide; cbn; done.
Qed.

Lemma run_not_running es : forall g g',
  state g <> RUNNING -> (forall now, EvStart now ∉ es) ->
  run es g = Some g' ->
  items g' = items g /\ state g' <> RUNNING.
Proof.
  induction es as [|e es IH]; intros g g' Hs Hns Hrun; simpl in Hrun.
  { by injection Hrun as <-. }
  destruct (enabled e g); [|done].
  destruct (handle_not_running e g Hs) as [Hit Hs'].
  { intros now ->. apply (Hns now). left. }
  destruct (IH (handle e g) g' Hs') as [Hit' Hs'']; [|done|].
  { intros now Hin. apply (Hns now). by right. }
  by rewrite Hit', Hit.
Qed.

(** C10 (as the code has it): [gameOver] leaves the items and every
    session field but [state] as they are; what it changes is [state], the
    overlay (title, reason, final-score text, visibility), the start
    button's label and the two registrations.  From a state in GAMEOVER,
    no sequence of frames, clock ticks, lane updates and stops changes the
    items; the next [start()] empties them. *)
Theorem items_rest_after_game_over :
  (forall reason g,
     items (gameOver reason g) = items g
     /\ score (gameOver reason g) = score g
     /\ level (gameOver reason g) = level g
     /\ timeLeft (gameOver reason g) = timeLeft g
     /\ lives (gameOver reason g) = lives g
     /\ basketZone (gameOver reason g) = basketZone g
     /\ spawnInterval (gameOver reason g) = spawnInterval g
     /\ baseSpeed (gameOver reason g) = baseSpeed g
     /\ state (gameOver reason g) = GAMEOVER
     /\ overlayTitle (dom (gameOver reason g)) = "GAME OVER"
     /\ overlayDesc (dom (gameOver reason g)) = reason
     /\ finalScoreDisplay (dom (gameOver reason g)) = Some (score g)
     /\ startBtnText (dom (gameOver reason g)) = "RESTART"
     /\ overlayHidden (dom (gameOver reason g)) = false
     /\ host (gameOver reason g)
        = clearInterval (timerInterval g)
            (cancelAnimationFrame (gameLoopId g) (host g)))
  /\ (forall es g g',
        state g = GAMEOVER -> (forall now, EvStart now ∉ es) ->
        run es g = Some g' -> items g' = items g)
  /\ (forall now g, state g = GAMEOVER -> items (start now g) = []).
Proof.
  split_and!.
  - intros reason g. pose proof (gameOver_fields reason g).
    split_and!; tauto.
  - intros es g g' Hs Hns Hrun.
    apply (run_not_running es g g'); [by rewrite Hs | done | done].
  - intros now g Hs. unfold start. rewrite Hs. by case_decide.
Qed.

Lemma items_rest_after_game_over_witness :
  state (from_run doubleMiss) = GAMEOVER
  /\ length (items (from_run doubleMiss)) = 2%nat
  /\ enabled (EvFrame 20200 400 (fruitDraw I0 "a7")) (from_run doubleMiss) = true
  /\ exists g',
       run [EvFrame 20200 400 (fruitDraw I0 "a7"); EvSetBasketZone "RIGHT"; EvStop]
           (from_run doubleMiss) = Some g'
       /\ items g' = items (from_run doubleMiss).
Proof.
  assert (Hs : state (from_run doubleMiss) = GAMEOVER) by (vm_compute; reflexivity).
  split; [exact Hs|]. split; [vm_compute; reflexivity|].
  split; [vm_compute; reflexivity|].
  destruct (run [EvFrame 20200 400 (fruitDraw I0 "a7"); EvSetBasketZone "RIGHT"; EvStop]
                (from_run doubleMiss)) as [g'|] eqn:Hrun; [|by vm_compute in Hrun].
  exists g'. split; [reflexivity|].
  refine (proj1 (proj2 items_rest_after_game_over) _ (from_run doubleMiss) g' Hs _ Hrun).
  intros now Hin. apply list_elem_of_In in Hin. simpl in Hin.
  destruct Hin as [|[|[|[]]]]; discriminate.
Defined.

(** C10 fails as stated.  In the last frame of the play [caughtBomb] the
    scan catches the bomb at index 1: the engine is then in GAMEOVER with
    the apple still in the list.  The same scan goes on to index 0 and
    removes the apple: when the frame ends the list is empty, and no
    [start()] has been called. *)
Lemma apple_removed_after_game_over :
  let g := midFrame 4600 400 noDraw (from_run appleThenBomb) in
  state g = RUNNING
  /\ state (collisionAt 400 1 g) = GAMEOVER
  /\ map glance (items (collisionAt 400 1 g)) = [("apple", 259)]
  /\ checkCollisions 400 g = scanDown 1 400 (collisionAt 400 1 g)
  /\ items (scanDown 1 400 (collisionAt 400 1 g)) <> items (collisionAt 400 1 g)
  /\ items (from_run caughtBomb) = [].
Proof. cbn zeta. split_and!; by vm_compute. Qed.

(** ** The bomb probability *)

Lemma bombChance_close_upto_1000 :
  forallb bombChance_close (map Z.of_nat (seq 1 1000)) = true.
Proof. vm_compute. reflexivity. Qed.

(** C9 (as the code has it): the spawner draws a bomb exactly when its
    coin is below [Math.min(0.1 + level * 0.05, 0.4)], computed in double
    arithmetic.  At level 1 that is the double 0.15000000000000002, at
    level 7 exactly the double 0.4; for every level from 1 to 1000 it is
    within 10^-16 of the exact [min(0.1 + level * 0.05, 0.4)] and not above
    the double 0.4; and the level of a reachable state is between 1 and
    4. *)
Theorem bombChance_in_doubles :
  (forall lvl d,
     pickType lvl d
     = if PrimFloat.ltb (coin d) (bombChance lvl)
       then Some (ItemType.mk "bomb" 0)
       else [ItemType.mk "apple" 100; ItemType.mk "pear" 150;
             ItemType.mk "orange" 200] !! ix (fruitIx d))
  /\ bombChance 1 = 0.15000000000000002%float
  /\ bombChance 7 = 0.4%float
  /\ (forall level, 1 <= level <= 1000 ->
        (Qabs (float_to_Q (bombChance level) - bombChance_exact level)
           <= Qmake 1 (10 ^ 16))%Q
        /\ PrimFloat.leb (bombChance level) 0.4%float = true)
  /\ (forall g, reachable g -> 1 <= level g <= 4).
Proof.
  split; [|split; [reflexivity|]; split; [reflexivity|]; split;
             [|intros g Hg; by apply level_bounds]].
  { intros lvl d. unfold pickType. by destruct (PrimFloat.ltb _ _). }
  intros lvl Hl.
  pose proof bombChance_close_upto_1000 as Hall.
  rewrite forallb_forall in Hall.
  specialize (Hall lvl). unfold bombChance_close in Hall.
  rewrite andb_true_iff, Qle_bool_iff in Hall. apply Hall.
  apply in_map_iff. exists (Z.to_nat lvl). split; [lia|].
  apply in_seq. lia.
Qed.

Lemma bombChance_in_doubles_witness :
  1 <= 3 <= 1000
  /\ PrimFloat.leb (bombChance 3) 0.4%float = true.
Proof.
  assert (H : 1 <= 3 <= 1000) by lia.
  split; [exact H|].
  exact (proj2 (proj1 (proj2 (proj2 (proj2 bombChance_in_doubles))) 3 H)).
Defined.

(** C9 fails as stated: at level 1 the bomb probability is not the double
    that 0.15 denotes; it is the next double above it. *)
Lemma bombChance_level1_is_not_015 :
  bombChance 1 <> 0.15%float
  /\ PrimFloat.eqb (bombChance 1) 0.15%float = false
  /\ PrimFloat.ltb 0.15%float (bombChance 1) = true
  /\ bombChance 1 = PrimFloat.next_up 0.15%float.
Proof.
  split; [|by vm_compute].
  intros H. apply (f_equal Prim2SF) in H. vm_compute in H. discriminate.
Qed.

(** * Auxiliary lemmas for the further properties *)

Lemma missedFruits_nonneg speed height l : forall skip,
  0 <= missedFruits speed height skip l.
Proof.
  induction l as [|a rest IH]; intros skip; simpl; [done|].
  destruct skip; [apply IH|].
  pose proof (IH true). pose proof (IH false).
  repeat case_decide; lia.
Qed.

Lemma handleMiss_fields item k g :
  items (handleMiss item k g) = delete k (items g)
  /\ score (handleMiss item k g) = score g
  /\ level (handleMiss item k g) = level g
  /\ timeLeft (handleMiss item k g) = timeLeft g
  /\ basketZone (handleMiss item k g) = basketZone g
  /\ lastSpawnTime (handleMiss item k g) = lastSpawnTime g
  /\ spawnInterval (handleMiss item k g) = spawnInterval g
  /\ baseSpeed (handleMiss item k g) = baseSpeed g
  /\ lastTime (handleMiss item k g) = lastTime g
  /\ lives (handleMiss item k g)
     = lives g - (if decide (Item.type item <> "bomb") then 1 else 0)
  /\ state (handleMiss item k g)
     = (if decide (Item.type item <> "bomb" /\ lives g - 1 <= 0)
        then GAMEOVER else state g)
  /\ overlayDesc (dom (handleMiss item k g))
     = (if decide (Item.type item <> "bomb" /\ lives g - 1 <= 0)
        then "Too many fruits missed!" else overlayDesc (dom g)).
Proof.
  unfold handleMiss. repeat case_decide; methods; split_and!; try done; try lia; tauto.
Qed.

Lemma forEach_from_exhausted height n : forall k g,
  (length (items g) <= k)%nat -> forEach_from n k height g = g.
Proof.
  induction n as [|n IH]; intros k g Hk; simpl; [done|].
  rewrite lookup_ge_None_2 by done. apply IH. lia.
Qed.

Lemma insert_middle {A} (pre : list A) a x rest :
  <[length pre := x]> (pre ++ a :: rest) = pre ++ x :: rest.
Proof. induction pre as [|p pre IH]; simpl; [done | by rewrite IH]. Qed.

Lemma sameRest_refl g : sameRest g g.
Proof. unfold sameRest. split_and!; done. Qed.

Lemma sameRest_trans g1 g2 g3 : sameRest g1 g2 -> sameRest g2 g3 -> sameRest g1 g3.
Proof.
  unfold sameRest. intros (A1 & A2 & A3 & A4 & A5 & A6 & A7 & A8)
    (B1 & B2 & B3 & B4 & B5 & B6 & B7 & B8).
  split_and!; congruence.
Qed.

(** The pass from index [length pre] on, with at least as many indices
    left to visit as there are items from there on. *)
Lemma forEach_from_sweep height n : forall g pre suf,
  items g = pre ++ suf -> (length suf <= n)%nat ->
  let m := missedFruits (baseSpeed g) height false suf in
  let g' := forEach_from n (length pre) height g in
  items g' = pre ++ sweep (baseSpeed g) height false suf
  /\ lives g' = lives g - m
  /\ state g' = (if decide (0 < m /\ lives g - m <= 0) then GAMEOVER else state g)
  /\ overlayDesc (dom g')
     = (if decide (0 < m /\ lives g - m <= 0) then "Too many fruits missed!"
        else overlayDesc (dom g))
  /\ sameRest g g'.
Proof.
  induction n as [|n IH]; intros g pre suf Hit Hn; cbn zeta.
  { destruct suf; [|simpl in Hn; lia]. cbn [forEach_from sweep missedFruits].
    rewrite Hit. split_and!;
      first [done | lia | (case_decide; [lia | done]) | apply sameRest_refl]. }
  destruct suf as [|a rest].
  { rewrite forEach_from_exhausted by (rewrite Hit, app_nil_r; lia).
    cbn [sweep missedFruits]. rewrite Hit.
    split_and!;
      first [done | lia | (case_decide; [lia | done]) | apply sameRest_refl]. }
  rewrite forEach_from_S.
  replace (items g !! length pre) with (Some a)
    by (by rewrite Hit, list_lookup_middle).
  unfold updateItem. cbn [Item.set_y Item.y]. simpl sweep. simpl missedFruits.
  fold (moved (baseSpeed g) a).
  set (g0 := set_items (<[length pre := moved (baseSpeed g) a]> (items g)) g).
  assert (Hit0 : items g0 = pre ++ moved (baseSpeed g) a :: rest)
    by (subst g0; cbn [items set_items]; by rewrite Hit, insert_middle).
  destruct (decide (Item.y a + baseSpeed g > height)) as [Hmiss|Hstay].
  - destruct (handleMiss_fields (moved (baseSpeed g) a) (length pre) g0)
      as (F1 & F2 & F3 & F4 & F5 & F6 & F7 & F8 & F9 & F10 & F11 & F12).
    rewrite Hit0, delete_middle in F1.
    set (g1 := handleMiss (moved (baseSpeed g) a) (length pre) g0) in *.
    assert (Hrest : sameRest g g1) by (unfold sameRest; split_and!; done).
    change (Item.type (moved (baseSpeed g) a)) with (Item.type a) in *.
    change (lives g0) with (lives g) in *. change (state g0) with (state g) in *.
    change (dom g0) with (dom g) in *.
    assert (Hend : exists g2 tl,
      forEach_from n (S (length pre)) height g1 = g2
      /\ sweep (baseSpeed g) height true rest = tl
      /\ items g2 = pre ++ tl
      /\ lives g2 = lives g1 - missedFruits (baseSpeed g) height true rest
      /\ state g2
         = (if decide (0 < missedFruits (baseSpeed g) height true rest
                       /\ lives g1 - missedFruits (baseSpeed g) height true rest <= 0)
            then GAMEOVER else state g1)
      /\ overlayDesc (dom g2)
         = (if decide (0 < missedFruits (baseSpeed g) height true rest
                       /\ lives g1 - missedFruits (baseSpeed g) height true rest <= 0)
            then "Too many fruits missed!" else overlayDesc (dom g1))
      /\ sameRest g1 g2).
    { destruct rest as [|b rest'].
      - rewrite forEach_from_exhausted by (rewrite F1, app_nil_r; lia).
        eexists _, _. split_and!; cbn [sweep missedFruits];
          first [done | lia | (case_decide; [lia | done]) | apply sameRest_refl].
      - destruct (IH g1 (pre ++ [b]) rest') as (I1 & I2 & I3 & I4 & I5).
        { by rewrite F1, <- app_assoc. }
        { simpl in Hn. lia. }
        rewrite length_app, Nat.add_1_r, F8 in *.
        change (baseSpeed g0) with (baseSpeed g) in *.
        eexists _, _. split_and!; try done. simpl. by rewrite I1, <- app_assoc. }
    destruct Hend as (g2 & tl & -> & -> & E1 & E2 & E3 & E4 & E5).
    pose proof (missedFruits_nonneg (baseSpeed g) height rest true) as Hm.
    rewrite E1, E2, E3, E4, F10, F11, F12.
    split_and!; [done | | | | by eapply sameRest_trans].
    + case_decide; lia.
    + repeat case_decide; first [done | exfalso; intuition lia].
    + repeat case_decide; first [done | exfalso; intuition lia].
  - destruct (IH g0 (pre ++ [moved (baseSpeed g) a]) rest) as (I1 & I2 & I3 & I4 & I5).
    { by rewrite Hit0, <- app_assoc. }
    { simpl in Hn. lia. }
    rewrite length_app, Nat.add_1_r in *.
    change (baseSpeed g0) with (baseSpeed g) in *.
    change (lives g0) with (lives g) in *. change (state g0) with (state g) in *.
    change (dom g0) with (dom g) in *.
    rewrite I1, I2, I3, I4, <- app_assoc.
    split_and!; done.
Qed.

Lemma updateItems_fields (height : Z) (g : GameEngine) :
  items (updateItems height g) = sweep (baseSpeed g) height false (items g)
  /\ lives (updateItems height g)
     = lives g - missedFruits (baseSpeed g) height false (items g)
  /\ state (updateItems height g)
     = (if decide (0 < missedFruits (baseSpeed g) height false (items g)
                   /\ lives g - missedFruits (baseSpeed g) height false (items g) <= 0)
        then GAMEOVER else state g)
  /\ overlayDesc (dom (updateItems height g))
     = (if decide (0 < missedFruits (baseSpeed g) height false (items g)
                   /\ lives g - missedFruits (baseSpeed g) height false (items g) <= 0)
        then "Too many fruits missed!" else overlayDesc (dom g))
  /\ sameRest g (updateItems height g).
Proof.
  destruct (forEach_from_sweep height (length (items g)) g [] (items g))
    as (H1 & H2 & H3 & H4 & H5); [done | lia|].
  unfold updateItems. simpl in H1. split_and!; done.
Qed.

Lemma spawnSystem_fields timestamp d g :
  items (spawnSystem timestamp d g) = items g ++ spawned timestamp d g
  /\ (timestamp - lastSpawnTime g > spawnInterval g ->
      exists item, spawned timestamp d g = [item] /\ Item.y item = -50)
  /\ (~ timestamp - lastSpawnTime g > spawnInterval g -> spawned timestamp d g = [])
  /\ baseSpeed (spawnSystem timestamp d g) = baseSpeed g
  /\ basketZone (spawnSystem timestamp d g) = basketZone g
  /\ lives (spawnSystem timestamp d g) = lives g
  /\ score (spawnSystem timestamp d g) = score g
  /\ state (spawnSystem timestamp d g) = state g
  /\ dom (spawnSystem timestamp d g) = dom g.
Proof.
  unfold spawned, spawnSystem. case_decide as Hdue.
  - destruct (spawnItem_defined d g) as (item & Hit & Hy & _).
    unfold spawnItem in *.
    destruct (zones !! ix (zoneIx d)) as [zone|], (pickType (level g) d) as [ty|];
      cbn in *; try (apply (f_equal length) in Hit; rewrite length_app in Hit;
                     simpl in Hit; lia).
    split_and!; try done. by eexists.
  - rewrite app_nil_r. split_and!; done.
Qed.

Lemma sweep_length speed height l : forall skip,
  (length (sweep speed height skip l) <= length l)%nat.
Proof.
  induction l as [|a rest IH]; intros skip; simpl; [done|].
  destruct skip; [specialize (IH false); simpl; lia|].
  case_decide; [specialize (IH true) | specialize (IH false)]; simpl; lia.
Qed.


Lemma checkCollisions_lives height g :
  lives (checkCollisions height g) = lives g.
Proof.
  unfold checkCollisions.
  by destruct (scanDown_session height (length (items g)) g) as (-> & _); [lia|].
Qed.

(** What a frame does to the items, the score and the lives of a RUNNING
    engine. *)
Lemma frame_fields (timestamp height : Z) (d : Draws) (g : GameEngine) :
  state g = RUNNING ->
  items (handle (EvFrame timestamp height d) g)
  = filter (fun item => ~ collides height (basketZone g) item)
      (sweep (baseSpeed g) height false (items g ++ spawned timestamp d g))
  /\ score (handle (EvFrame timestamp height d) g)
     = score g + caughtScore height (basketZone g)
         (sweep (baseSpeed g) height false (items g ++ spawned timestamp d g))
  /\ lives (handle (EvFrame timestamp height d) g)
     = lives g - missedFruits (baseSpeed g) height false
                   (items g ++ spawned timestamp d g).
Proof.
  intros Hs. simpl. unfold loop. cbn [state set_host].
  case_decide; [done|]. unfold requestAnimationFrame.
  cbn [items score lives set_gameLoopId set_host].
  set (g0 := set_lastTime (Some timestamp) (set_host (popFrame (host g)) g)).
  destruct (spawnSystem_fields timestamp d g0) as (S1 & _ & _ & S2 & S3 & S4 & S5 & _).
  change (items g0) with (items g) in S1. change (baseSpeed g0) with (baseSpeed g) in S2.
  change (basketZone g0) with (basketZone g) in S3.
  change (spawned timestamp d g0) with (spawned timestamp d g) in S1.
  change (lives g0) with (lives g) in S4. change (score g0) with (score g) in S5.
  destruct (updateItems_fields height (spawnSystem timestamp d g0))
    as (U1 & U2 & _ & _ & (U3 & _ & _ & U4 & _)).
  destruct (checkCollisions_spec height (updateItems height (spawnSystem timestamp d g0)))
    as (C1 & C2).
  rewrite checkCollisions_lives, C1, C2, U4, S3, U1, U2, U3, S4, S5, S2, S1. done.
Qed.

Lemma Forall_kept {A} (P Q : A -> Prop) `{!forall x, Decision (P x)} (l : list A) :
  Forall Q l -> Forall Q (filter P l).
Proof.
  rewrite !Forall_forall. intros Hall x Hx.
  apply list_elem_of_filter in Hx as [_ Hx]. by apply Hall.
Qed.

Lemma spawned_wellFormed timestamp d g :
  Forall wellFormed (spawned timestamp d g).
Proof.
  unfold spawned. case_decide; [|done].
  destruct (zones !! ix (zoneIx d)) as [zone|] eqn:Hz; [|done].
  destruct (pickType (level g) d) as [ty|] eqn:Hty; [|done].
  constructor; [|done]. unfold wellFormed. cbn. split_and!; [| |done].
  - by eapply list_elem_of_lookup_2.
  - unfold pickType in Hty. destruct (PrimFloat.ltb _ _).
    + cbn in Hty. injection Hty as <-. cbn. apply list_elem_of_In; simpl; tauto.
    + destruct (fruitIx d); cbn in Hty; injection Hty as <-; cbn; apply list_elem_of_In; simpl; tauto.
Qed.

Lemma sweep_wellFormed speed height l : forall skip,
  0 <= speed -> Forall wellFormed l -> Forall wellFormed (sweep speed height skip l).
Proof.
  induction l as [|a rest IH]; intros skip Hs Hall; simpl; [done|].
  apply Forall_cons in Hall as [Ha Hrest].
  destruct skip; [constructor; auto|].
  case_decide; [auto|]. constructor; [|auto].
  destruct Ha as (H1 & H2 & H3). unfold wellFormed. cbn. split_and!; [done..|lia].
Qed.

Lemma wellFormed_frame timestamp height d g :
  0 <= baseSpeed g -> Forall wellFormed (items g) ->
  Forall wellFormed (items (handle (EvFrame timestamp height d) g)).
Proof.
  intros Hb Hall. destruct (decide (state g = RUNNING)) as [Hs|Hs].
  - destruct (frame_fields timestamp height d g Hs) as (-> & _).
    apply Forall_kept, sweep_wellFormed; [done|].
    apply Forall_app. split; [done | apply spawned_wellFormed].
  - simpl. unfold loop. cbn [state set_host]. by case_decide.
Qed.

Lemma wellFormed_reachable g : reachable g -> Forall wellFormed (items g).
Proof.
  induction 1 as [|e g Hg IH He]; [by cbn|].
  destruct e as [now| |zone|ts h d|].
  - simpl. unfold start. case_decide; [done|]. by cbn.
  - done.
  - done.
  - apply wellFormed_frame; [|done].
    destruct (level_bounds g Hg) as (_ & ? & _). lia.
  - destruct (timerTick_fields g) as (_ & Hit & _). simpl. by rewrite Hit.
Qed.

(** A scan in which nothing collides returns the engine as it is. *)
Lemma scanDown_nothing height n : forall g,
  Forall (fun item => ~ collides height (basketZone g) item) (items g) ->
  scanDown n height g = g.
Proof.
  induction n as [|n IH]; intros g Hall; simpl; [done|].
  unfold collisionAt. destruct (items g !! n) as [item|] eqn:Hn; [|by apply IH].
  rewrite decide_False by exact (proj1 (Forall_lookup _ _) Hall n item Hn).
  by apply IH.
Qed.

Lemma checkCollisions_basketZone height g :
  basketZone (checkCollisions height g) = basketZone g.
Proof.
  unfold checkCollisions.
  by destruct (scanDown_spec height (length (items g)) g) as (_ & _ & ->); [lia|].
Qed.

Lemma remove_id_idemp i l : remove_id i (remove_id i l) = remove_id i l.
Proof.
  unfold remove_id. induction l as [|j l IH]; [done|].
  rewrite (filter_cons _ j l). case_decide; [|done].
  rewrite filter_cons_True by done. by rewrite IH.
Qed.

Lemma spawnInterval_of_level g :
  reachable g -> spawnInterval g = 2000 - (level g - 1) * 300.
Proof.
  induction 1 as [|e g Hg IH He]; [by cbn|].
  assert (Hnext : reachable (handle e g)) by (by apply reach_step).
  destruct e as [now| |zone|ts h d|].
  - simpl. unfold start. case_decide; [done|]. by cbn.
  - done.
  - done.
  - by destruct (frame_keeps_pace ts h d g) as (-> & _ & -> & _).
  - destruct (level_bounds _ Hnext) as ([_ Hl] & _). simpl in *.
    destruct (timerTick_fields g) as (_ & _ & _ & _ & _ & F2 & _ & F3 & _).
    rewrite F2 in *. rewrite F3. case_decide; lia.
Qed.

Lemma timeLeft_step e g :
  (forall now, e <> EvStart now) ->
  timeLeft (handle e g) = timeLeft g - (if isTimer e then 1 else 0).
Proof.
  intros Hns. destruct e as [now| |zone|ts h d|]; simpl.
  - by destruct (Hns now).
  - lia.
  - lia.
  - destruct (frame_keeps_pace ts h d g) as (_ & _ & _ & Ht & _). simpl in Ht. lia.
  - by destruct (timerTick_fields g) as (-> & _).
Qed.

Lemma timeLeft_run es : forall g g',
  (forall now, EvStart now ∉ es) -> run es g = Some g' ->
  timeLeft g' = timeLeft g - ticks es.
Proof.
  unfold ticks. induction es as [|e es IH]; intros g g' Hns Hrun; simpl in Hrun.
  { injection Hrun as <-. simpl. lia. }
  destruct (enabled e g); [|done].
  rewrite (IH (handle e g) g'); [|intros now Hin; apply (Hns now); by right|done].
  rewrite timeLeft_step by (intros now ->; apply (Hns now); left).
  simpl. destruct (isTimer e); simpl; lia.
Qed.

Lemma timer_needs_running g :
  reachable g -> (enabled EvTimer g = true <-> state g = RUNNING).
Proof.
  intros Hg. destruct (clock_ok_reachable g Hg) as (_ & _ & _ & Hi). simpl.
  rewrite bool_decide_eq_true.
  destruct Hi as [[Hs ->]|(Hs & _ & t & _ & ->)]; split; try done.
Qed.

Lemma finalShown_frame timestamp height d g :
  scores_nonneg g /\ finalShown g ->
  scores_nonneg (handle (EvFrame timestamp height d) g)
  /\ finalShown (handle (EvFrame timestamp height d) g).
Proof.
  apply (frame_preserves (fun g' => scores_nonneg g' /\ finalShown g'));
    try done.
  - intros h item k g0 Hk (Hf & Hshown).
    split; [by apply updateItem_scores|]. revert Hshown. unfold finalShown.
    callbacks; intros Hshown Hs; try (by apply Hshown); by eexists.
  - intros item i g0 Hi (Hf & Hshown).
    pose proof (scores_nonneg_lookup g0 i item Hf Hi) as Hsc.
    split; [by apply handleCatch_scores|]. revert Hshown. unfold finalShown.
    callbacks; intros Hshown Hs; [by eexists|].
    destruct (Hshown Hs) as (n & Hn & Hle). exists n. split; [done | lia].
  - intros d0 g0 (Hf & Hshown). split; [by apply spawnItem_scores|].
    revert Hshown. unfold finalShown, spawnItem. repeat case_match; done.
Qed.

Lemma finalShown_reachable g : reachable g -> finalShown g.
Proof.
  induction 1 as [|e g Hg IH He]; [done|].
  destruct e as [now| |zone|ts h d|].
  - simpl. unfold start. case_decide; [done|]. intros Hs. by cbn in Hs.
  - intros Hs. by cbn in Hs.
  - exact IH.
  - apply finalShown_frame. split; [|done]. by apply session_ok_reachable.
  - revert IH. unfold finalShown. simpl. methods.
    repeat case_decide; intros IH Hs; try (by apply IH); by eexists.
Qed.

Lemma timerTick_running g :
  state (timerTick g) = RUNNING ->
  host (timerTick g) = host g /\ gameLoopId (timerTick g) = gameLoopId g
  /\ state g = RUNNING.
Proof. methods. repeat case_decide; done. Qed.

(** A frame callback that finds the engine RUNNING registers itself again
    as its last step, whatever happened in between. *)
Lemma frame_reschedules timestamp height d g :
  state g = RUNNING ->
  exists F i, frames (host (handle (EvFrame timestamp height d) g)) = F ++ [i]
    /\ gameLoopId (handle (EvFrame timestamp height d) g) = Some i.
Proof.
  intros Hs. simpl. unfold loop. cbn [state set_host]. case_decide; [done|].
  unfold requestAnimationFrame. cbn. by eexists _, _.
Qed.

Lemma loopPending_reachable g : reachable g -> loopPending g.
Proof.
  induction 1 as [|e g Hg IH He]; [done|].
  destruct e as [now| |zone|ts h d|].
  - simpl. unfold start. case_decide; [done|]. intros _. cbn.
    eexists. split; [done|]. apply elem_of_app. right. by left.
  - intros Hs. by cbn in Hs.
  - exact IH.
  - destruct (decide (state g = RUNNING)) as [Hs|Hs].
    + destruct (frame_reschedules ts h d g Hs) as (F & i & HF & Hid).
      intros _. exists i. split; [done|]. rewrite HF.
      apply elem_of_app. right. by left.
    + intros Hs'. simpl in Hs'. unfold loop in Hs'. cbn [state set_host] in Hs'.
      by case_decide.
  - intros Hs. destruct (timerTick_running g Hs) as (Hh & Hid & Hs0).
    simpl. rewrite Hh, Hid. by apply IH.
Qed.

Lemma spawnSystem_host timestamp d g :
  host (spawnSystem timestamp d g) = host g.
Proof. unfold spawnSystem, spawnItem. repeat case_match; done. Qed.

(** The two passes of a frame leave the host alone unless they end the
    session. *)
Lemma passes_keep_host height h0 g :
  (state g = RUNNING -> host g = h0) ->
  state (checkCollisions height (updateItems height g)) = RUNNING ->
  host (checkCollisions height (updateItems height g)) = h0.
Proof.
  intros Hg. unfold checkCollisions.
  apply (scanDown_preserves (fun g' => state g' = RUNNING -> host g' = h0)).
  { intros item i g1 _ Hkeep. revert Hkeep.
    callbacks; intros Hkeep Hrun; first [discriminate Hrun | by apply Hkeep]. }
  unfold updateItems.
  apply (forEach_from_preserves (fun g' => state g' = RUNNING -> host g' = h0));
    [|done].
  intros item k g1 _ Hkeep. revert Hkeep.
  callbacks; intros Hkeep Hrun; first [discriminate Hrun | by apply Hkeep].
Qed.

(** A frame that leaves the engine RUNNING has changed nothing in the
    host but its own registration. *)
Lemma frame_keeps_host timestamp height d g :
  state g = RUNNING -> state (handle (EvFrame timestamp height d) g) = RUNNING ->
  frames (host (handle (EvFrame timestamp height d) g))
    = tail (frames (host g)) ++ [fresh (host g)]
  /\ intervals (host (handle (EvFrame timestamp height d) g)) = intervals (host g).
Proof.
  intros Hs. simpl. unfold loop. cbn [state set_host]. case_decide; [done|].
  unfold requestAnimationFrame. cbn [state set_gameLoopId set_host host frames intervals].
  set (g0 := set_lastTime (Some timestamp) (set_host (popFrame (host g)) g)).
  intros Hs'.
  rewrite (passes_keep_host height (popFrame (host g))); [done| |done].
  intros _. by rewrite spawnSystem_host.
Qed.

(** * Further properties of the engine *)

(** ** The simulation pass as a function of the list *)

(** X1: [updateItems] leaves exactly [sweep]: going down the list, an item
    that stays inside the game area moves by [baseSpeed]; an item that
    comes to lie beyond [height] is removed, and the item behind it is
    passed over unmoved.  The lives fall by the number of fruits removed;
    the engine goes to GAMEOVER with the reason "Too many fruits missed!"
    exactly when a fruit was removed and the lives end at 0 or below.
    Score, level, speed, clock and lane are untouched. *)
Theorem updateItems_is_sweep (height : Z) (g : GameEngine) :
  let m := missedFruits (baseSpeed g) height false (items g) in
  let g' := updateItems height g in
  items g' = sweep (baseSpeed g) height false (items g)
  /\ lives g' = lives g - m
  /\ state g' = (if decide (0 < m /\ lives g - m <= 0) then GAMEOVER else state g)
  /\ overlayDesc (dom g')
     = (if decide (0 < m /\ lives g - m <= 0) then "Too many fruits missed!"
        else overlayDesc (dom g))
  /\ score g' = score g /\ level g' = level g /\ baseSpeed g' = baseSpeed g
  /\ timeLeft g' = timeLeft g /\ basketZone g' = basketZone g.
Proof.
  destruct (updateItems_fields height g)
    as (H1 & H2 & H3 & H4 & (S1 & S2 & S3 & S4 & S5 & S6 & S7 & S8)).
  cbn zeta. split_and!; done.
Qed.

(** ** A whole frame *)

(** X2: a frame of a RUNNING engine is spawn, then sweep, then catch: the
    items left are the swept list (with the item spawned in this frame at
    its end) without those that collide; the score grows by the fruits
    caught and the lives fall by the fruits missed. *)
Theorem frame_composes (timestamp height : Z) (d : Draws) (g : GameEngine) :
  state g = RUNNING ->
  let g' := handle (EvFrame timestamp height d) g in
  let swept := sweep (baseSpeed g) height false (items g ++ spawned timestamp d g) in
  items g' = filter (fun item => ~ collides height (basketZone g) item) swept
  /\ score g' = score g + caughtScore height (basketZone g) swept
  /\ lives g'
     = lives g - missedFruits (baseSpeed g) height false
                   (items g ++ spawned timestamp d g).
Proof. intros Hs. by apply frame_fields. Qed.

Lemma frame_composes_witness :
  state (from_run appleThenBomb) = RUNNING
  /\ lives (handle (frameAt 400 4600 noDraw) (from_run appleThenBomb))
     = lives (from_run appleThenBomb)
       - missedFruits (baseSpeed (from_run appleThenBomb)) 400 false
           (items (from_run appleThenBomb)
            ++ spawned 4600 noDraw (from_run appleThenBomb)).
Proof.
  assert (Hs : state (from_run appleThenBomb) = RUNNING) by (vm_compute; reflexivity).
  split; [exact Hs|].
  exact (proj2 (proj2 (frame_composes 4600 400 noDraw (from_run appleThenBomb) Hs))).
Defined.

(** X3: a frame adds at most one item to the list, and none when no spawn
    is due. *)
Theorem frame_adds_at_most_one (timestamp height : Z) (d : Draws) (g : GameEngine) :
  (length (items (handle (EvFrame timestamp height d) g)) <= S (length (items g)))%nat
  /\ (~ timestamp - lastSpawnTime g > spawnInterval g ->
      (length (items (handle (EvFrame timestamp height d) g)) <= length (items g))%nat).
Proof.
  destruct (decide (state g = RUNNING)) as [Hs|Hs].
  - destruct (frame_fields timestamp height d g Hs) as (-> & _).
    pose proof (length_filter (fun item => ~ collides height (basketZone g) item)
                  (sweep (baseSpeed g) height false (items g ++ spawned timestamp d g))).
    pose proof (sweep_length (baseSpeed g) height
                  (items g ++ spawned timestamp d g) false) as Hsw.
    rewrite length_app in Hsw.
    assert (Hsp : (length (spawned timestamp d g) <= 1)%nat).
    { unfold spawned. repeat case_match; simpl; lia. }
    split; [lia|]. intros Hdue. unfold spawned in *.
    rewrite decide_False in * by done. simpl in *. lia.
  - simpl. unfold loop. cbn [state set_host]. case_decide; [|done].
    cbn [items set_host]. split; [lia | done].
Qed.

Lemma frame_adds_at_most_one_witness :
  ~ 4600 - lastSpawnTime (from_run appleThenBomb) > spawnInterval (from_run appleThenBomb)
  /\ (length (items (handle (EvFrame 4600 400 noDraw) (from_run appleThenBomb)))
      <= length (items (from_run appleThenBomb)))%nat.
Proof.
  assert (H : ~ 4600 - lastSpawnTime (from_run appleThenBomb)
                > spawnInterval (from_run appleThenBomb)) by (vm_compute; discriminate).
  split; [exact H|].
  exact (proj2 (frame_adds_at_most_one 4600 400 noDraw (from_run appleThenBomb)) H).
Defined.



(** ** The items of a session *)

(** X5: every item of a reachable state is as [spawnItem] makes them: its
    lane is one of LEFT, CENTER, RIGHT, its type and score are an entry of
    [itemTypes] (so an item is a bomb exactly when its score is 0), and it
    is not above the spawn line -50. *)
Theorem items_wellFormed (g : GameEngine) :
  reachable g ->
  Forall wellFormed (items g)
  /\ (forall item, item ∈ items g ->
        (Item.type item = "bomb" <-> Item.score item = 0)
        /\ 0 <= Item.score item <= 200).
Proof.
  intros Hg. pose proof (wellFormed_reachable g Hg) as Hall.
  split; [done|]. intros item Hin.
  destruct (proj1 (Forall_forall _ _) Hall item Hin) as (_ & Hty & _).
  apply list_elem_of_In in Hty. simpl in Hty.
  destruct Hty as [Hty|[Hty|[Hty|[Hty|[]]]]];
    injection Hty as Ht Hsc; rewrite <- Ht, <- Hsc; split; try lia; split; done.
Qed.

Lemma items_wellFormed_witness :
  reachable (from_run appleThenBomb)
  /\ Forall wellFormed (items (from_run appleThenBomb)).
Proof.
  split; [apply from_run_reachable|].
  exact (proj1 (items_wellFormed _ (from_run_reachable appleThenBomb))).
Defined.

(** X6: while the basket's lane is not one of the three lanes, a collision
    scan of a reachable state catches nothing: it returns the engine as it
    is. *)
Theorem invalid_lane_catches_nothing (height : Z) (g : GameEngine) :
  reachable g -> basketZone g ∉ zones ->
  checkCollisions height g = g.
Proof.
  intros Hg Hz. apply scanDown_nothing.
  eapply Forall_impl; [exact (wellFormed_reachable g Hg)|].
  intros item (Hlane & _) (_ & Heq). apply Hz. by rewrite <- Heq.
Qed.

Lemma invalid_lane_catches_nothing_witness :
  reachable (from_run laneUp)
  /\ (basketZone (from_run laneUp) ∉ zones)
  /\ length (items (from_run laneUp)) = 1%nat
  /\ length (items (checkCollisions 60 (setBasketZone "LEFT" (from_run laneUp)))) = 0%nat
  /\ checkCollisions 60 (from_run laneUp) = from_run laneUp.
Proof.
  assert (Hz : basketZone (from_run laneUp) ∉ zones)
    by (apply decided; vm_compute; reflexivity).
  split; [apply from_run_reachable|]. split; [exact Hz|].
  split; [vm_compute; reflexivity|].
  split; [vm_compute; reflexivity|].
  exact (invalid_lane_catches_nothing 60 _ (from_run_reachable laneUp) Hz).
Defined.

(** X7: a second collision scan at the same height changes nothing. *)
Theorem checkCollisions_idempotent (height : Z) (g : GameEngine) :
  checkCollisions height (checkCollisions height g) = checkCollisions height g.
Proof.
  unfold checkCollisions at 1. apply scanDown_nothing.
  rewrite checkCollisions_basketZone.
  destruct (checkCollisions_spec height g) as (-> & _).
  apply Forall_forall. intros item Hin.
  by apply list_elem_of_filter in Hin as [Hn _].
Qed.

(** ** Difficulty and clock *)

(** X8: in every reachable state [spawnInterval] is
    [2000 - (level - 1) * 300], which lies between 1100 and 2000: the floor
    of 500 in [levelUp] is never reached within the 60 seconds. *)
Theorem spawnInterval_follows_level (g : GameEngine) :
  reachable g ->
  spawnInterval g = 2000 - (level g - 1) * 300
  /\ 1100 <= spawnInterval g <= 2000.
Proof.
  intros Hg. pose proof (spawnInterval_of_level g Hg) as Hsp.
  destruct (level_bounds g Hg) as (Hl & _). split; [done | lia].
Qed.

Lemma spawnInterval_follows_level_witness :
  reachable (from_run fiveApples)
  /\ spawnInterval (from_run fiveApples) = 1700.
Proof.
  split; [apply from_run_reachable|].
  rewrite (proj1 (spawnInterval_follows_level _ (from_run_reachable fiveApples))).
  vm_compute. reflexivity.
Defined.

(** X9: in every reachable state the clock is between 0 and 60, at most
    one interval is registered, the interval callback can run exactly when
    the engine is RUNNING, and a RUNNING engine has at least one second
    left. *)
Theorem clock_and_interval (g : GameEngine) :
  reachable g ->
  0 <= timeLeft g <= 60
  /\ (length (intervals (host g)) <= 1)%nat
  /\ (enabled EvTimer g = true <-> state g = RUNNING)
  /\ (state g = RUNNING -> 1 <= timeLeft g).
Proof.
  intros Hg. destruct (clock_ok_reachable g Hg) as (Ht & _ & _ & Hi).
  split; [done|]. split; [|split; [by apply timer_needs_running|]].
  - destruct Hi as [[_ ->]|(_ & _ & t & _ & ->)]; simpl; lia.
  - intros Hs. by destruct Hi as [[Hn _]|(_ & ? & _)].
Qed.

Lemma clock_and_interval_witness :
  reachable (from_run fiftyNineSeconds)
  /\ 1 <= timeLeft (from_run fiftyNineSeconds).
Proof.
  split; [apply from_run_reachable|].
  apply (clock_and_interval _ (from_run_reachable fiftyNineSeconds)).
  vm_compute. reflexivity.
Defined.

(** X10: along any run without [start()], the clock falls by exactly the
    number of clock ticks in the run; so from a reachable state no more
    clock ticks can happen than there are seconds left. *)
Theorem clock_ticks_bounded (es : list Event) (g g' : GameEngine) :
  reachable g -> (forall now, EvStart now ∉ es) -> run es g = Some g' ->
  timeLeft g' = timeLeft g - ticks es /\ ticks es <= timeLeft g.
Proof.
  intros Hg Hns Hrun. pose proof (timeLeft_run es g g' Hns Hrun) as Ht.
  split; [done|].
  destruct (level_bounds g' (run_reachable es g g' Hg Hrun)) as (_ & _ & Hb & _). lia.
Qed.

Lemma clock_ticks_bounded_witness :
  reachable (from_run fiftyNineSeconds)
  /\ run [EvTimer] (from_run fiftyNineSeconds)
     = Some (timerTick (from_run fiftyNineSeconds))
  /\ ticks [EvTimer] <= timeLeft (from_run fiftyNineSeconds).
Proof.
  assert (Hrun : run [EvTimer] (from_run fiftyNineSeconds)
                 = Some (timerTick (from_run fiftyNineSeconds)))
    by (vm_compute; reflexivity).
  split; [apply from_run_reachable|]. split; [exact Hrun|].
  refine (proj2 (clock_ticks_bounded [EvTimer] _ _ (from_run_reachable _) _ Hrun)).
  intros now Hin. apply list_elem_of_In in Hin. simpl in Hin.
  destruct Hin as [|[]]; discriminate.
Defined.

(** ** After the session *)

(** X11: once a reachable engine is not RUNNING, nothing that can happen
    short of [start()] changes score, lives, level, clock, speed, spawn
    interval or items, and the engine stays out of RUNNING. *)
Theorem frozen_after_end (e : Event) (g : GameEngine) :
  reachable g -> state g <> RUNNING ->
  (forall now, e <> EvStart now) -> enabled e g = true ->
  score (handle e g) = score g /\ lives (handle e g) = lives g
  /\ level (handle e g) = level g /\ timeLeft (handle e g) = timeLeft g
  /\ baseSpeed (handle e g) = baseSpeed g
  /\ spawnInterval (handle e g) = spawnInterval g
  /\ items (handle e g) = items g
  /\ state (handle e g) <> RUNNING.
Proof.
  intros Hg Hs Hns He. destruct e as [now| |zone|ts h d|].
  - by destruct (Hns now).
  - done.
  - done.
  - simpl. unfold loop. cbn [state set_host]. by case_decide.
  - by apply timer_needs_running in He.
Qed.

Lemma frozen_after_end_witness :
  reachable (from_run doubleMiss)
  /\ state (from_run doubleMiss) <> RUNNING
  /\ enabled (EvFrame 20200 400 (fruitDraw I0 "a7")) (from_run doubleMiss) = true
  /\ items (handle (EvFrame 20200 400 (fruitDraw I0 "a7"))
                   (set_state RUNNING (from_run doubleMiss)))
     <> items (from_run doubleMiss)
  /\ items (handle (EvFrame 20200 400 (fruitDraw I0 "a7")) (from_run doubleMiss))
     = items (from_run doubleMiss).
Proof.
  assert (Hs : state (from_run doubleMiss) <> RUNNING) by (vm_compute; discriminate).
  assert (He : enabled (EvFrame 20200 400 (fruitDraw I0 "a7")) (from_run doubleMiss) = true)
    by (vm_compute; reflexivity).
  split; [apply from_run_reachable|]. split; [exact Hs|]. split; [exact He|].
  split; [vm_compute; discriminate|].
  refine (proj1 (proj2 (proj2 (proj2 (proj2 (proj2 (proj2
            (frozen_after_end _ _ (from_run_reachable doubleMiss) Hs _ He)))))))).
  discriminate.
Defined.

(** X12: in every reachable GAMEOVER state the overlay shows a final score,
    and the score shown is not above the engine's score. *)
Theorem final_score_shown (g : GameEngine) :
  reachable g -> state g = GAMEOVER ->
  exists n, finalScoreDisplay (dom g) = Some n /\ n <= score g.
Proof. intros Hg. by apply finalShown_reachable. Qed.

Lemma final_score_shown_witness :
  reachable (from_run caughtBomb)
  /\ state (from_run caughtBomb) = GAMEOVER
  /\ exists n, finalScoreDisplay (dom (from_run caughtBomb)) = Some n
       /\ n <= score (from_run caughtBomb).
Proof.
  assert (Hs : state (from_run caughtBomb) = GAMEOVER) by (vm_compute; reflexivity).
  split; [apply from_run_reachable|]. split; [exact Hs|].
  exact (final_score_shown _ (from_run_reachable caughtBomb) Hs).
Defined.

(** X13: [stop()] is idempotent, and after it no interval of a reachable
    engine is left registered. *)
Theorem stop_idempotent (g : GameEngine) :
  stop (stop g) = stop g
  /\ state (stop g) = STOPPED
  /\ (reachable g -> intervals (host (stop g)) = []).
Proof.
  split; [|split; [done|]].
  - unfold stop. cbn. destruct (gameLoopId g), (timerInterval g); cbn;
      repeat match goal with
             | |- context [filter (fun j : nat => j <> ?x) ?l] =>
                 change (filter (fun j : nat => j <> x) l) with (remove_id x l)
             end;
      by rewrite ?remove_id_idemp.
  - intros Hg. apply stop_intervals, clock_ok_intervals, clock_ok_reachable, Hg.
Qed.

Lemma stop_idempotent_witness :
  reachable (from_run fiveApples)
  /\ intervals (host (from_run fiveApples)) <> []
  /\ intervals (host (stop (from_run fiveApples))) = [].
Proof.
  split; [apply from_run_reachable|]. split; [vm_compute; discriminate|].
  exact (proj2 (proj2 (stop_idempotent _)) (from_run_reachable fiveApples)).
Defined.

(** ** The frame loop *)

(** X14: while a reachable engine is RUNNING, the frame callback it
    registered last is pending, so a frame can always run. *)
Theorem frame_loop_pending (g : GameEngine) :
  reachable g -> state g = RUNNING ->
  (exists i, gameLoopId g = Some i /\ i ∈ frames (host g))
  /\ forall timestamp height d, enabled (EvFrame timestamp height d) g = true.
Proof.
  intros Hg Hs. destruct (loopPending_reachable g Hg Hs) as (i & Hid & Hin).
  split; [by exists i|]. intros ts h d. simpl. apply bool_decide_eq_true.
  intros Hnil. rewrite Hnil in Hin. by apply elem_of_nil in Hin.
Qed.

Lemma frame_loop_pending_witness :
  reachable (from_run fiveApples)
  /\ state (from_run fiveApples) = RUNNING
  /\ enabled (EvFrame 20100 400 noDraw) (from_run fiveApples) = true.
Proof.
  assert (Hs : state (from_run fiveApples) = RUNNING) by (vm_compute; reflexivity).
  split; [apply from_run_reachable|]. split; [exact Hs|].
  exact (proj2 (frame_loop_pending _ (from_run_reachable fiveApples) Hs) 20100 400 noDraw).
Defined.

(** X15: a frame callback that finds the engine RUNNING registers itself
    again even when the session ended in it; a [start()] that follows
    leaves two callbacks pending.  And a frame that leaves the engine
    RUNNING replaces its own registration by one new one, so the number of
    pending callbacks stays what it is. *)
Theorem restart_doubles_frame_loop :
  (forall timestamp height d now g,
     state g = RUNNING ->
     state (handle (EvFrame timestamp height d) g) <> RUNNING ->
     (2 <= length (frames (host (start now (handle (EvFrame timestamp height d) g)))))%nat)
  /\ (forall timestamp height d g,
        state g = RUNNING -> frames (host g) <> [] ->
        state (handle (EvFrame timestamp height d) g) = RUNNING ->
        length (frames (host (handle (EvFrame timestamp height d) g)))
        = length (frames (host g))).
Proof.
  split.
  - intros ts h d now g Hs Hs'.
    destruct (frame_reschedules ts h d g Hs) as (F & i & HF & _).
    revert Hs' HF. generalize (handle (EvFrame ts h d) g). intros g' Hs' HF.
    unfold start. case_decide; [done|]. cbn. rewrite HF, !length_app. simpl. lia.
  - intros ts h d g Hs Hne Hs'.
    destruct (frame_keeps_host ts h d g Hs Hs') as (-> & _).
    rewrite length_app. destruct (frames (host g)); [done|]. simpl. lia.
Qed.

Lemma restart_doubles_frame_loop_witness :
  state (from_run appleThenBomb) = RUNNING
  /\ state (handle (EvFrame 4600 400 noDraw) (from_run appleThenBomb)) <> RUNNING
  /\ (2 <= length (frames (host (start 9000
        (handle (EvFrame 4600 400 noDraw) (from_run appleThenBomb))))))%nat.
Proof.
  assert (Hs : state (from_run appleThenBomb) = RUNNING) by (vm_compute; reflexivity).
  assert (Hs' : state (handle (EvFrame 4600 400 noDraw) (from_run appleThenBomb)) <> RUNNING)
    by (vm_compute; discriminate).
  split; [exact Hs|]. split; [exact Hs'|].
  exact (proj1 restart_doubles_frame_loop 4600 400 noDraw 9000 _ Hs Hs').
Defined.

(** ** The prediction callback *)

Lemma SFltb_asym x y : SFltb x y = true -> SFltb y x = false.
Proof.
  unfold SFltb.
  destruct x as [sx|sx| |sx mx ex], y as [sy|sy| |sy my ey]; simpl;
    try destruct sx; try destruct sy; try done;
    change (Pos.compare_cont Eq) with Pos.compare;
    destruct (Z.compare_spec ex ey), (Z.compare_spec ey ex); try done; try lia;
    destruct (Pos.compare_spec mx my), (Pos.compare_spec my mx);
    simpl; try done; try lia.
Qed.

Lemma SFltb_negtrans x y z :
  y <> S754_nan ->
  SFltb x y = false -> SFltb y z = false -> SFltb x z = false.
Proof.
  unfold SFltb.
  destruct x as [sx|sx| |sx mx ex], y as [sy|sy| |sy my ey],
    z as [sz|sz| |sz mz ez]; simpl;
    try destruct sx; try destruct sy; try destruct sz; try done;
    intros _; change (Pos.compare_cont Eq) with Pos.compare;
    destruct (Z.compare_spec ex ey), (Z.compare_spec ey ez),
      (Z.compare_spec ex ez); try done; try lia;
    destruct (Pos.compare_spec mx my), (Pos.compare_spec my mz),
      (Pos.compare_spec mx mz); simpl; try done; try lia.
Qed.

Lemma ltb_asym (x y : float) : (x <? y)%float = true -> (y <? x)%float = false.
Proof. rewrite !ltb_spec. apply SFltb_asym. Qed.

Lemma ltb_negtrans (x y z : float) :
  is_nan y = false ->
  (x <? y)%float = false -> (y <? z)%float = false -> (x <? z)%float = false.
Proof.
  unfold is_nan. rewrite eqb_spec, !ltb_spec. intros Hy.
  apply SFltb_negtrans. intros E. rewrite E in Hy. done.
Qed.

Lemma fold_pickTop rest : forall first,
  Forall (fun p => is_nan (Prediction.probability p) = false) (first :: rest) ->
  exists before after,
    first :: rest = before ++ fold_left pickTop rest first :: after
    /\ Forall (fun p => (Prediction.probability (fold_left pickTop rest first)
                         <? Prediction.probability p)%float = false) before
    /\ Forall (fun p => (Prediction.probability p
                         <? Prediction.probability (fold_left pickTop rest first))%float
                        = true) after.
Proof.
  induction rest as [|x rest IH] using rev_ind; intros first Hnan.
  - exists [], []. simpl. by split_and!.
  - rewrite app_comm_cons in Hnan. apply Forall_app in Hnan as [Hnan Hx].
    apply Forall_inv in Hx.
    destruct (IH first Hnan) as (before & after & E & Hb & Ha).
    rewrite fold_left_app. simpl. set (acc := fold_left pickTop rest first) in *.
    assert (Hacc : is_nan (Prediction.probability acc) = false).
    { rewrite Forall_forall in Hnan. apply Hnan. rewrite E.
      apply elem_of_app. right. left. }
    unfold pickTop.
    destruct (Prediction.probability x <? Prediction.probability acc)%float eqn:Hlt.
    + exists before, (after ++ [x]). split_and!.
      * by rewrite app_comm_cons, E, <- app_assoc.
      * done.
      * apply Forall_app. split; [done|]. by constructor.
    + exists (before ++ acc :: after), []. split_and!.
      * by rewrite app_comm_cons, E, <- app_assoc.
      * apply Forall_app. split; [|constructor].
        -- eapply Forall_impl; [exact Hb|]. intros p Hp. simpl in Hp.
           by apply (ltb_negtrans _ (Prediction.probability acc)).
        -- done.
        -- eapply Forall_impl; [exact Ha|]. intros p Hp. simpl in Hp.
           apply (ltb_negtrans _ (Prediction.probability acc)); [done..|].
           by apply ltb_asym.
      * constructor.
Qed.

(** X16: without a stabilizer, [handlePrediction] takes the top class with
    [reduce].  On a non-empty output with no NaN probability the result is
    the last entry of greatest probability: no entry before it has a greater
    one, every entry after it a strictly smaller one.  (The empty output
    raises.) *)
Theorem reduce_takes_last_maximum predictions :
  predictions <> [] ->
  Forall (fun p => is_nan (Prediction.probability p) = false) predictions ->
  exists before top after,
    predictions = before ++ top :: after
    /\ reduceTop predictions = Some top
    /\ Forall (fun p => (Prediction.probability top
                         <? Prediction.probability p)%float = false) before
    /\ Forall (fun p => (Prediction.probability p
                         <? Prediction.probability top)%float = true) after.
Proof.
  destruct predictions as [|first rest]; [done|]. intros _ Hnan.
  destruct (fold_pickTop rest first Hnan) as (before & after & E & Hb & Ha).
  exists before, (fold_left pickTop rest first), after. by split_and!.
Qed.

Lemma reduce_takes_last_maximum_witness :
  exists before top after,
    threePoses = before ++ top :: after
    /\ reduceTop threePoses = Some top
    /\ Forall (fun p => (Prediction.probability top
                         <? Prediction.probability p)%float = false) before
    /\ Forall (fun p => (Prediction.probability p
                         <? Prediction.probability top)%float = true) after.
Proof.
  apply reduce_takes_last_maximum; [done|].
  repeat constructor.
Defined.

(** X17: whenever [handlePrediction] returns, it was the engine's lane
    update or nothing: a reachable engine stays reachable, and the score,
    the lives, the level, the clock, the state, the items and the
    registered callbacks are untouched, whatever the class is called and
    whatever the stabilizer handed back.  With no stabilizer, the label in
    the page and a non-empty output it does return, and the lane stored is
    the upper-cased name of the entry [reduce] picked (nothing is stored
    for the empty name). *)
Theorem handlePrediction_keeps_session toUpperCase stabilizer poseLabel predictions g :
  reachable g ->
  (forall g',
     handlePrediction toUpperCase stabilizer poseLabel predictions g = Some g' ->
     reachable g' /\ score g' = score g /\ lives g' = lives g
     /\ level g' = level g /\ timeLeft g' = timeLeft g
     /\ state g' = state g /\ items g' = items g
     /\ host g' = host g)
  /\ (stabilizer = None -> poseLabel = true -> predictions <> [] ->
      exists top g',
        reduceTop predictions = Some top
        /\ handlePrediction toUpperCase stabilizer poseLabel predictions g = Some g'
        /\ (Prediction.className top <> "" ->
            basketZone g' = toUpperCase (Prediction.className top))
        /\ (Prediction.className top = "" -> g' = g)).
Proof.
  intros Hr. unfold handlePrediction. split.
  - intros g'.
    destruct (match stabilizer with
              | Some stabilize => stabilize predictions
              | None =>
                match reduceTop predictions with
                | Some top => StResult (NameString (Prediction.className top))
                | None => StRaises
                end
              end) as [|[name| |]]; try done.
    + case_decide; [by intros [= <-]; split_and!|].
      destruct poseLabel; [|done]. intros [= <-].
      split; [by apply (reach_step (EvSetBasketZone _))|].
      by destruct g.
    + by intros [= <-]; split_and!.
  - intros -> -> Hne. destruct predictions as [|first rest]; [done|].
    simpl. exists (fold_left pickTop rest first).
    case_decide.
    + exists g. by split_and!.
    + eexists. split_and!; [done|done| |done]. intros _. by destruct g.
Qed.

Lemma handlePrediction_keeps_session_witness :
  exists g', handlePrediction upper None true threePoses constructed = Some g'
             /\ basketZone g' = "RIGHT" /\ reachable g'.
Proof.
  destruct (handlePrediction_keeps_session upper None true threePoses constructed
              reach_init) as [H _].
  eexists. split; [vm_compute; reflexivity|]. split; [vm_compute; reflexivity|].
  apply H. vm_compute. reflexivity.
Defined.

(** ** The display *)

Lemma synced_start now g : state g <> RUNNING -> synced (start now g).
Proof.
  intros Hs. unfold start. case_decide; [done|].
  unfold synced, requestAnimationFrame, setInterval. methods. by split_and!.
Qed.

Lemma synced_frame timestamp height d g :
  synced g -> synced (handle (EvFrame timestamp height d) g).
Proof.
  apply (frame_preserves synced); unfold synced.
  - intros; callbacks; intuition (done || lia).
  - intros; callbacks; intuition (done || lia).
  - intros; callbacks; intuition (done || lia).
  - intros; methods; done.
  - intros; methods; done.
  - intros; methods; done.
  - intros; methods; done.
Qed.

Lemma synced_step e g : synced g -> synced (handle e g).
Proof.
  destruct e as [now| |zone|ts h d|].
  - intros Hg. simpl. destruct (decide (state g = RUNNING)) as [Hs|Hs].
    + unfold start. by rewrite decide_True.
    + by apply synced_start.
  - unfold synced. simpl. methods. intuition done.
  - unfold synced. simpl. methods. intuition done.
  - apply synced_frame.
  - unfold synced. simpl. methods. repeat case_decide; intuition (done || lia).
Qed.

Lemma synced_run es : forall g g', synced g -> run es g = Some g' -> synced g'.
Proof.
  induction es as [|e es IH]; intros g g' Hg; simpl; [by intros [= <-]|].
  destruct (enabled e g); [|done]. apply IH. by apply synced_step.
Qed.

(** X18: whatever the page showed before, from a press of start on the
    display follows the engine after every handler: score, level and time
    are the engine's, the hearts are [max 0 lives], the basket stands where
    its lane puts it (the centre for a value that is no lane), the overlay
    is hidden while RUNNING and shown with RESTART in GAMEOVER. *)
Theorem display_in_sync now es g g' :
  state g <> RUNNING ->
  run (EvStart now :: es) g = Some g' ->
  synced g'.
Proof.
  intros Hs. simpl. apply synced_run. by apply synced_start.
Qed.

Lemma display_in_sync_witness :
  exists g', run laneUp constructed = Some g' /\ synced g'.
Proof.
  assert (Hs : state constructed <> RUNNING) by done.
  destruct (run laneUp constructed) as [g'|] eqn:E; [|by vm_compute in E].
  exists g'. split; [done|].
  exact (display_in_sync 0 (tail laneUp) constructed g' Hs E).
Defined.
